(** * data_processor.py: the anomaly detection pipeline

    A shallow embedding of [load_data] and [detect_anomalies] of
    [src/data_processor.py], together with the small parts of pandas, numpy
    and Python that the two functions rely on, followed by the properties
    of the detection pipeline.

    Layout: Python outcomes and exceptions, string formatting, the regular
    expression of the email check, numpy's [where] and [percentile], the
    DataFrame model, sample datasets, the pipeline itself, and then the
    lemmas and the theorems. *)

From Stdlib Require Import String Ascii List ZArith QArith Lia Bool.
From Stdlib Require Import Qround Qabs Lqa Floats Uint63 DecimalString DecimalNat Sorted.
Import ListNotations.

Open Scope string_scope.
Open Scope list_scope.
Open Scope nat_scope.

(* ================================================================== *)
(** ** Python outcomes *)

Module Py.

(** The exception classes that can reach the two functions. *)
Inductive ExcClass : Set :=
| ValueError
| EmptyDataError        (* pandas.errors.EmptyDataError(ValueError) *)
| ParserError           (* pandas.errors.ParserError(ValueError) *)
| UnicodeDecodeError    (* UnicodeError(ValueError) *)
| FileNotFoundError     (* OSError *)
| IndexError            (* LookupError *)
| KeyError              (* LookupError *)
| MemoryError
| FloatingPointError.   (* ArithmeticError *)

Record Exc : Set := mkExc { exc_class : ExcClass; exc_msg : string }.

(** [isinstance(e, ValueError)]: what [except ValueError] catches. *)
Definition is_ValueError (e : Exc) : bool :=
  match exc_class e with
  | ValueError | EmptyDataError | ParserError | UnicodeDecodeError => true
  | _ => false
  end.


(** A call either returns a value or raises. *)
Inductive Outcome (A : Type) : Type :=
| Return (a : A)
| Raise (e : Exc).
Arguments Return {A} a.
Arguments Raise {A} e.

Definition bind {A B : Type} (m : Outcome A) (k : A -> Outcome B) : Outcome B :=
  match m with
  | Return a => k a
  | Raise e => Raise e
  end.

(** A [for] loop whose body may raise: the first exception leaves the loop. *)
Fixpoint for_each {S A : Type} (body : S -> A -> Outcome S) (xs : list A) (s : S)
  : Outcome S :=
  match xs with
  | [] => Return s
  | x :: xs' => bind (body s x) (for_each body xs')
  end.

End Py.
Import Py.

Declare Scope py_scope.
Notation "x <- m ;; k" := (bind m (fun x => k))
(at level 61, m at next level, right associativity) : py_scope.
Open Scope py_scope.

(* ================================================================== *)
(** ** Formatting: [str(int)] and [f"{x:.2f}"] *)

Module Fmt.

(** [str(n)] for a non-negative integer. *)
Definition str_of_nat (n : nat) : string :=
  NilEmpty.string_of_uint (Nat.to_uint n).

(** int -> float64 conversion (exact below 2^53). *)
Definition float_of_nat (n : nat) : float :=
  PrimFloat.of_uint63 (Uint63.of_Z (Z.of_nat n)).

(** [num / den] rounded to the nearest integer, ties to even
    ([num >= 0], [den > 0]). *)
Definition round_half_even (num den : Z) : Z :=
  let q := (num / den)%Z in
  let r := (num mod den)%Z in
  match (2 * r ?= den)%Z with
  | Lt => q
  | Gt => (q + 1)%Z
  | Eq => if Z.even q then q else (q + 1)%Z
  end.

(** The exact value [m * 2^e] times 100, correctly rounded to an integer. *)
Definition hundredths (m : positive) (e : Z) : Z :=
  if (0 <=? e)%Z then (Z.pos m * 100 * 2 ^ e)%Z
  else round_half_even (Z.pos m * 100) (2 ^ (- e)).

Definition two_digits (n : nat) : string :=
  if n <? 10 then ("0" ++ str_of_nat n)%string else str_of_nat n.

Definition sign_str (s : bool) : string := if s then "-" else "".

(** [f"{x:.2f}"]: the decimal expansion of the binary64 value of [x],
    correctly rounded to two fractional digits. *)
Definition format_2f (x : float) : string :=
  match Prim2SF x with
  | S754_nan => "nan"
  | S754_infinity s => (sign_str s ++ "inf")%string
  | S754_zero s => (sign_str s ++ "0.00")%string
  | S754_finite s m e =>
      let h := Z.to_nat (hundredths m e) in
      (sign_str s ++ str_of_nat (h / 100) ++ "." ++ two_digits (h mod 100))%string
  end.

End Fmt.

(* ================================================================== *)
(** ** The regular expression of the email check *)

Module Re.

(** Regular expressions over characters, matched by derivatives. *)
Inductive regex : Type :=
| Void
| Eps
| Class (p : ascii -> bool)
| Cat (r1 r2 : regex)
| Alt (r1 r2 : regex)
| Star (r : regex).

Definition Plus (r : regex) : regex := Cat r (Star r).

Fixpoint nullable (r : regex) : bool :=
  match r with
  | Void => false
  | Eps => true
  | Class _ => false
  | Cat r1 r2 => nullable r1 && nullable r2
  | Alt r1 r2 => nullable r1 || nullable r2
  | Star _ => true
  end.

Fixpoint deriv (c : ascii) (r : regex) : regex :=
  match r with
  | Void => Void
  | Eps => Void
  | Class p => if p c then Eps else Void
  | Cat r1 r2 =>
      if nullable r1 then Alt (Cat (deriv c r1) r2) (deriv c r2)
      else Cat (deriv c r1) r2
  | Alt r1 r2 => Alt (deriv c r1) (deriv c r2)
  | Star r1 => Cat (deriv c r1) (Star r1)
  end.

(** [r] matches the whole of [s]. *)
Fixpoint fullmatch (r : regex) (s : string) : bool :=
  match s with
  | EmptyString => nullable r
  | String c s' => fullmatch (deriv c r) s'
  end.

Definition in_range (lo hi c : ascii) : bool :=
  (N_of_ascii lo <=? N_of_ascii c)%N && (N_of_ascii c <=? N_of_ascii hi)%N.

Definition is_char (a c : ascii) : bool := Ascii.eqb a c.

(** [[a-zA-Z]] *)
Definition alpha (c : ascii) : bool :=
  in_range "a" "z" c || in_range "A" "Z" c.

(** [[a-zA-Z0-9]] *)
Definition alnum (c : ascii) : bool := alpha c || in_range "0" "9" c.

(** [[a-zA-Z0-9._%+-]] *)
Definition local_char (c : ascii) : bool :=
  alnum c || is_char "." c || is_char "_" c || is_char "%" c
  || is_char "+" c || is_char "-" c.

(** [[a-zA-Z0-9.-]] *)
Definition domain_char (c : ascii) : bool :=
  alnum c || is_char "." c || is_char "-" c.

(** The body of [r'^[a-zA-Z0-9._%+-]+@[a-zA-Z0-9.-]+\.[a-zA-Z]{2,}$'],
    between the two anchors. *)
Definition EMAIL_BODY : regex :=
  Cat (Plus (Class local_char))
    (Cat (Class (is_char "@"))
       (Cat (Plus (Class domain_char))
          (Cat (Class (is_char "."))
             (Cat (Class alpha) (Cat (Class alpha) (Star (Class alpha))))))).

(** The string without its last character, when that is a newline. *)
Fixpoint strip_final_newline (s : string) : option string :=
  match s with
  | EmptyString => None
  | String c EmptyString => if is_char "010" c then Some EmptyString else None
  | String c s' =>
      match strip_final_newline s' with
      | Some t => Some (String c t)
      | None => None
      end
  end.

(** [re.search('^' + body + '$', s)] without flags: [^] anchors at the
    start of the string; [$] matches at the end of the string and also
    just before a newline that ends the string. *)
Definition search_anchored (body : regex) (s : string) : bool :=
  fullmatch body s
  || match strip_final_newline s with
     | Some t => fullmatch body t
     | None => false
     end.

Definition is_email (s : string) : bool := search_anchored EMAIL_BODY s.

End Re.

(* ================================================================== *)
(** ** What the email pattern denotes *)

Module ReSem.

Import Re.

(** The strings a regular expression denotes. *)
Inductive matches : regex -> string -> Prop :=
| MEps : matches Eps EmptyString
| MClass (p : ascii -> bool) (c : ascii) :
    p c = true -> matches (Class p) (String c EmptyString)
| MCat (r1 r2 : regex) (s1 s2 : string) :
    matches r1 s1 -> matches r2 s2 -> matches (Cat r1 r2) (s1 ++ s2)%string
| MAltL (r1 r2 : regex) (s : string) : matches r1 s -> matches (Alt r1 r2) s
| MAltR (r1 r2 : regex) (s : string) : matches r2 s -> matches (Alt r1 r2) s
| MStarNil (r : regex) : matches (Star r) EmptyString
| MStarCons (r : regex) (s1 s2 : string) :
    matches r s1 -> matches (Star r) s2 -> matches (Star r) (s1 ++ s2)%string.

(** Every character of [s] is in the class [p]. *)
Fixpoint all_in (p : ascii -> bool) (s : string) : bool :=
  match s with
  | EmptyString => true
  | String c s' => p c && all_in p s'
  end.

(** The number of occurrences of [a] in [s]. *)
Fixpoint count_char (a : ascii) (s : string) : nat :=
  match s with
  | EmptyString => 0
  | String c s' => (if Ascii.eqb a c then 1 else 0) + count_char a s'
  end.

(** [local@domain.tld]: a non-empty local part over [[a-zA-Z0-9._%+-]], a
    non-empty domain over [[a-zA-Z0-9.-]], and at least two letters after
    the last dot. *)
Definition email_shape (s : string) : Prop :=
  exists local domain tld : string,
    s = (local ++ "@" ++ domain ++ "." ++ tld)%string
    /\ local <> EmptyString /\ all_in local_char local = true
    /\ domain <> EmptyString /\ all_in domain_char domain = true
    /\ 2 <= String.length tld /\ all_in alpha tld = true.

End ReSem.

(* ================================================================== *)
(** ** numpy: [where] and [percentile] *)

Module Np.

Fixpoint where_from (i : nat) (mask : list bool) : list nat :=
  match mask with
  | [] => []
  | b :: mask' =>
      if b then i :: where_from (S i) mask' else where_from (S i) mask'
  end.

(** [np.where(mask)[0]]: the positions at which [mask] holds, ascending. *)
Definition np_where (mask : list bool) : list nat := where_from 0 mask.

(** [x < y] on scores. *)
Definition Qltb (x y : Q) : bool := negb (Qle_bool y x).

Fixpoint insert_sorted (x : Q) (l : list Q) : list Q :=
  match l with
  | [] => [x]
  | y :: l' => if Qle_bool x y then x :: l else y :: insert_sorted x l'
  end.

Definition sort (l : list Q) : list Q := fold_right insert_sorted [] l.

(** [np.percentile(a, q)] with the default linear interpolation: the
    value at the virtual index [(n - 1) * q / 100] of the sorted data,
    interpolated between its two neighbours.  The interpolation is
    computed exactly on rationals. *)
Definition percentile (a : list Q) (q : Q) : Q :=
  let s := sort a in
  let n := length a in
  let virtual_index := (inject_Z (Z.of_nat (n - 1)) * q / 100)%Q in
  let previous := Z.to_nat (Qfloor virtual_index) in
  let next := Nat.min (previous + 1) (n - 1) in
  let gamma := (virtual_index - inject_Z (Z.of_nat previous))%Q in
  let lo := nth previous s 0%Q in
  let hi := nth next s 0%Q in
  (lo + (hi - lo) * gamma)%Q.

End Np.
Import Np.

(* ================================================================== *)
(** ** pandas: the DataFrame the loader produces *)

Module Pd.

(** What [tolist()] can hold: a row label, a number, NaN, a string or a
    boolean. *)
Inductive PyValue : Type :=
| PyIdx (i : nat)
| PyNum (x : Q)
| PyNaN
| PyStr (s : string)
| PyBool (b : bool).

(** A column's cells by storage type, as [read_csv] infers it: int64 or
    float64 (an absent cell is NaN), bool, or object (text, an absent
    cell is NaN). *)
Inductive Series : Type :=
| NumSeries (vals : list (option Q))
| BoolSeries (vals : list bool)
| ObjSeries (vals : list (option string)).

Record Column : Type := mkColumn { col_name : string; col_data : Series }.

(** Columns in file order; rows are labelled [0 .. nrows - 1], the
    default RangeIndex of [read_csv]. *)
Record DataFrame : Type := mkDataFrame { nrows : nat; columns : list Column }.

Definition num_cell (c : option Q) : PyValue :=
  match c with Some x => PyNum x | None => PyNaN end.

Definition obj_cell (c : option string) : PyValue :=
  match c with Some s => PyStr s | None => PyNaN end.

(** [series.tolist()] *)
Definition tolist (s : Series) : list PyValue :=
  match s with
  | NumSeries vals => map num_cell vals
  | BoolSeries vals => map PyBool vals
  | ObjSeries vals => map obj_cell vals
  end.

Definition is_nan (v : PyValue) : bool :=
  match v with PyNaN => true | _ => false end.

(** [series.isnull()] *)
Definition isnull (s : Series) : list bool := map is_nan (tolist s).

(** [mask.any()] *)
Definition any (mask : list bool) : bool := existsb (fun b => b) mask.

(** [mask.sum()] *)
Definition sum (mask : list bool) : nat := length (filter (fun b => b) mask).

(** [len(df)] *)
Definition len (df : DataFrame) : nat := nrows df.

(** Every column has one cell per row, and the labels are unique
    ([read_csv] renames repeated headers). *)
Definition well_formed (df : DataFrame) : Prop :=
  (forall c, In c (columns df) -> length (tolist (col_data c)) = nrows df)
  /\ NoDup (map col_name (columns df)).

Fixpoint unique (labels : list string) : bool :=
  match labels with
  | [] => true
  | x :: labels' => negb (existsb (String.eqb x) labels') && unique labels'
  end.

(** [well_formed] as a check. *)
Definition well_formedb (df : DataFrame) : bool :=
  forallb (fun c => length (tolist (col_data c)) =? nrows df) (columns df)
  && unique (map col_name (columns df)).

(** [df.select_dtypes(include=np.number)]: the int64 and float64 columns,
    in column order (bool is not a number dtype). *)
Definition select_dtypes_number (df : DataFrame) : list (string * list (option Q)) :=
  flat_map (fun c => match col_data c with
                     | NumSeries vals => [(col_name c, vals)]
                     | _ => []
                     end) (columns df).

Definition notnull (vals : list (option Q)) : list bool :=
  map (fun c => match c with Some _ => true | None => false end) vals.

(** [series.dropna().values] *)
Definition dropna_values (vals : list (option Q)) : list Q :=
  flat_map (fun c => match c with Some x => [x] | None => [] end) vals.

(** [series.dropna().index]: the labels of the rows that stay. *)
Definition dropna_index (vals : list (option Q)) : list nat :=
  np_where (notnull vals).

Fixpoint distinct (seen : list Q) (l : list Q) : list Q :=
  match l with
  | [] => seen
  | x :: l' =>
      if existsb (Qeq_bool x) seen then distinct seen l'
      else distinct (x :: seen) l'
  end.

(** [series.nunique()]: the number of distinct values, NaN not counted. *)
Definition nunique (vals : list (option Q)) : nat :=
  length (distinct [] (dropna_values vals)).

(** Selection by a list of positions ([iloc]) or labels ([loc]); a
    position or label that does not exist raises [exc]. *)
Fixpoint take {A : Type} (exc : ExcClass) (l : list A) (keys : list nat)
  : Outcome (list A) :=
  match keys with
  | [] => Return []
  | k :: keys' =>
      match nth_error l k with
      | Some a => rest <- take exc l keys' ;; Return (a :: rest)
      | None => Raise (mkExc exc "out of bounds")
      end
  end.

Definition iloc {A : Type} := @take A IndexError.
Definition loc {A : Type} := @take A KeyError.

(** [frame[mask]] on one column: the cells of the rows where [mask]
    holds, in row order. *)
Fixpoint boolean_index {A : Type} (mask : list bool) (l : list A) : list A :=
  match mask, l with
  | b :: mask', a :: l' =>
      if b then a :: boolean_index mask' l' else boolean_index mask' l'
  | _, _ => []
  end.

(** [series.head(n)] and [list[:n]] *)
Definition head {A : Type} (n : nat) (l : list A) : list A := firstn n l.

(** ['email' in df.columns] and [df['email']] *)
Definition getitem (df : DataFrame) (label : string) : option Series :=
  option_map col_data
    (find (fun c => String.eqb (col_name c) label) (columns df)).

End Pd.
Import Pd.

(* ================================================================== *)
(** ** data_processor.py *)

(** One anomaly record: the dict a detector appends.  The missing-value
  dict has no ["original_indices"] key; its row labels are stored under
  ["sample_values"]. *)
Record Anomaly : Type := mkAnomaly {
  type : string;
  column : string;
  description : string;
  sample_values : list PyValue;
  original_indices : option (list nat)
}.

(** The state of one call of [detect_anomalies]: the list under
  construction and the lines written by [print]. *)
Record Env : Type := mkEnv { anomalies : list Anomaly; stdout : list string }.

Definition append (env : Env) (a : Anomaly) : Env :=
  {| anomalies := anomalies env ++ [a]; stdout := stdout env |}.

Definition print (line : string) (env : Env) : Env :=
  {| anomalies := anomalies env; stdout := stdout env ++ [line] |}.


(* ================================================================== *)
(** ** Sample datasets and stand-ins for the external libraries *)

(** The numeric column of the spec's outlier example. *)
Definition example_outlier_column : list (option Q) :=
  map (fun z => Some (inject_Z z)) [1; 2; 2; 3; 2; 1; 2; 3; 2; 100]%Z.

Module Sample.

Definition num (z : Z) : option Q := Some (inject_Z z).

(** Ten rows: the outlier example, an email column with three absent
    cells, a constant column and a boolean column. *)
Definition people : DataFrame :=
  {| nrows := 10;
     columns :=
       [ mkColumn "age" (NumSeries example_outlier_column);
         mkColumn "email"
           (ObjSeries [Some "a@b.com"; None; Some "c@d.org"; Some "e@f.io";
                       None; Some "g@h.net"; Some "i@j.edu"; None;
                       Some "k@l.com"; Some "not-an-email"]);
         mkColumn "level" (NumSeries (repeat (num 5) 10));
         mkColumn "member"
           (BoolSeries [true; false; true; true; false;
                        true; false; false; true; true]) ] |}.



(** One numerical column with two distinct values. *)
Definition two_values : DataFrame :=
  {| nrows := 2; columns := [ mkColumn "x" (NumSeries [num 1; num 2]) ] |}.

(** A header and no rows. *)
Definition no_rows : DataFrame :=
  {| nrows := 0;
     columns := [ mkColumn "age" (NumSeries []); mkColumn "email" (ObjSeries []) ] |}.

(** Nothing to report: no absent cell, a constant column, valid emails. *)
Definition clean : DataFrame :=
  {| nrows := 2;
     columns :=
       [ mkColumn "level" (NumSeries [num 5; num 5]);
         mkColumn "email" (ObjSeries [Some "a@b.com"; Some "c@d.org"]) ] |}.

(** A stand-in for numpy's printing of a number: its integer part. *)
Definition num_str (x : Q) : string := Fmt.str_of_nat (Z.to_nat (Qfloor x)).

(** A stand-in for the isolation forest: the model keeps the training
    sample and scores a value by its distance to the sample mean, negated
    (far from the mean is low). *)
Definition Forest : Type := list Q.

Definition fit (seed : Z) (X : list Q) : Outcome Forest := Return X.

Definition mean (X : list Q) : Q :=
  (fold_right Qplus 0 X / inject_Z (Z.of_nat (length X)))%Q.

Definition decision_function (forest : Forest) (x : Q) : Q :=
  (- Qabs (x - mean forest))%Q.


(** A fit that runs out of memory, and one that rejects its input. *)
Definition fit_out_of_memory (seed : Z) (X : list Q) : Outcome Forest :=
  Raise (mkExc MemoryError "Unable to allocate array").

Definition fit_rejects (seed : Z) (X : list Q) : Outcome Forest :=
  Raise (mkExc ValueError "Input X contains infinity or a value too large for dtype('float32').").


End Sample.

(* ================================================================== *)
(** ** app.py: the anomaly tab *)

Module App.

(** [f"{i+1}. {a['type']} in '{a['column']}'"] *)
Definition anomaly_option (i : nat) (a : Anomaly) : string :=
  (Fmt.str_of_nat (i + 1) ++ ". " ++ type a ++ " in '" ++ column a ++ "'")%string.

Fixpoint options_from (i : nat) (anomalies : list Anomaly) : list string :=
  match anomalies with
  | [] => []
  | a :: rest => anomaly_option i a :: options_from (S i) rest
  end.

(** [anomaly_options]: one label per anomaly, numbered by [enumerate]. *)
Definition anomaly_options (anomalies : list Anomaly) : list string :=
  options_from 0 anomalies.

(** [[0-9]], the characters [str] prints a natural number with. *)
Definition digit (c : ascii) : bool := Re.in_range "0" "9" c.

(** [l[idx]] for a non-negative index. *)
Definition list_getitem {A : Type} (l : list A) (idx : nat) : Outcome A :=
  match nth_error l idx with
  | Some a => Return a
  | None => Raise (mkExc IndexError "list index out of range")
  end.






Section Stats.

(** pandas reductions and dtype tests that are taken as given: [mean()]
    and [std()] (binary64 arithmetic), [min()] and [max()] of a bool column,
    [is_string_dtype(s) or is_categorical_dtype(s)], and
    [value_counts().head(5).to_dict()]. *)
Variable series_mean series_std : Series -> PyValue.
Variable bool_min bool_max : list bool -> PyValue.
Variable is_text_dtype : Series -> bool.
Variable top_5_values : Series -> list (PyValue * nat).


End Stats.

End App.

(** Stand-ins for the pandas reductions [column_stats] takes as given. *)
Module AppSample.







End AppSample.

Section DataProcessor.

(** [str(x)] of a numeric cell, as numpy prints it. *)
Variable num_str : Q -> string.

(** scikit-learn's isolation forest, which is not part of the repository:
    [IsolationForest(contamination='auto', random_state=seed).fit(X)]
    returns a fitted model or raises; [decision_function(X)] then returns
    one score per sample of [X], computed from the fitted model and that
    sample (lower is more anomalous).  It is called on the data the model
    was fitted on, which the fit has already validated.  Scores are
    rationals here: every finite binary64 value is one, and they are only
    compared and interpolated. *)
Variable Forest : Type.
Variable IsolationForest_fit : Z -> list Q -> Outcome Forest.
Variable decision_function : Forest -> Q -> Q.

(** [series.astype(str)], cell by cell. *)
Definition astype_str (v : PyValue) : string :=
  match v with
  | PyIdx i => Fmt.str_of_nat i
  | PyNum x => num_str x
  | PyNaN => "nan"
  | PyStr s => s
  | PyBool b => if b then "True" else "False"
  end.

(** [(missing_count / len(df)) * 100] in binary64. *)
Definition missing_percentage (missing_count n : nat) : float :=
  PrimFloat.mul
    (PrimFloat.div (Fmt.float_of_nat missing_count) (Fmt.float_of_nat n))
    (Fmt.float_of_nat 100).

(** # 1. Missing Values: the body of the loop over [df.columns].  The
    labels being unique, [df[col]] is the column the loop is at. *)
Definition missing_values_body (df : DataFrame) (anomalies : list Anomaly)
    (col : Column) : list Anomaly :=
  let null_mask := isnull (col_data col) in
  if any null_mask then
    let missing_count := sum null_mask in
    anomalies ++
    [ {| type := "Missing Values";
         column := col_name col;
         description :=
           (Fmt.str_of_nat missing_count ++ " ("
            ++ Fmt.format_2f (missing_percentage missing_count (len df))
            ++ "%) missing values found.")%string;
         sample_values := map PyIdx (head 3 (np_where null_mask));
         original_indices := None |} ]
  else anomalies.

(** The [try] block of the outlier loop. *)
Definition outlier_try (env : Env) (name : string) (vals : list (option Q))
    (temp_col_data : list Q) : Outcome Env :=
  iso_forest <- IsolationForest_fit 42 temp_col_data ;;
  let outlier_scores := map (decision_function iso_forest) temp_col_data in
  let outlier_indices :=
    np_where (map (fun s => Qltb s (percentile outlier_scores 5)) outlier_scores) in
  if 0 <? length outlier_indices then
    original_indices <- iloc (dropna_index vals) outlier_indices ;;
    flagged <- loc (map num_cell vals) original_indices ;;
    Return (append env
      {| type := "Outlier (Numerical)";
         column := name;
         description :=
           "Potential outliers detected using Isolation Forest. Score below 5th percentile.";
         sample_values := head 3 flagged;
         original_indices := Some (head 3 original_indices) |})
  else Return env.

(** # 2. Outliers: the body of the loop over the numerical columns. *)
Definition outlier_body (env : Env) (col : string * list (option Q))
  : Outcome Env :=
  let '(name, vals) := col in
  if 1 <? nunique vals then
    let temp_col_data := dropna_values vals in
    if 1 <? length temp_col_data then
      match outlier_try env name vals temp_col_data with
      | Return env' => Return env'
      | Raise e =>
          if is_ValueError e then
            Return (print ("Could not run IsolationForest on " ++ name
                           ++ ": " ++ exc_msg e)%string env)
          else Raise e
      end
    else Return env
  else Return env.

(** # 3. Invalid Email Format. *)
Definition email_check (df : DataFrame) (env : Env) : Env :=
  match getitem df "email" with
  | Some email =>
      let contains := map (fun v => Re.is_email (astype_str v)) (tolist email) in
      let invalid_mask := map negb contains in
      let invalid_emails := boolean_index invalid_mask (tolist email) in
      let invalid_index := np_where invalid_mask in
      if negb (length invalid_index =? 0) then
        append env
          {| type := "Invalid Format (Email)";
             column := "email";
             description :=
               (Fmt.str_of_nat (length invalid_index)
                ++ " rows with invalid email format found.")%string;
             sample_values := head 3 invalid_emails;
             original_indices := Some (head 3 invalid_index) |}
      else env
  | None => env
  end.

(** [detect_anomalies(df)]: the three passes in order.  The Python
    function returns the [anomalies] of the final state. *)
Definition detect_anomalies (df : DataFrame) : Outcome Env :=
  let anomalies := fold_left (missing_values_body df) (columns df) [] in
  let numerical_cols := select_dtypes_number df in
  env <- for_each outlier_body numerical_cols
           {| anomalies := anomalies; stdout := [] |} ;;
  Return (email_check df env).

Section Loader.

(** [pd.read_csv]: a DataFrame, or an exception. *)
Variable read_csv : string -> Outcome DataFrame.



End Loader.

(* ---------------------------------------------------------------- *)
(** *** What each pass contributes, column by column

    The definitions below name the parts of the loop bodies above; the
    lemmas that follow relate them to [detect_anomalies]. *)


(** The records pass 1 appends for one column. *)
Definition missing_records (df : DataFrame) (col : Column) : list Anomaly :=
  missing_values_body df [] col.

(** A numerical column reaches the [try] block. *)
Definition eligible (vals : list (option Q)) : bool :=
  (1 <? nunique vals) && (1 <? length (dropna_values vals)).

Definition outlier_scores (forest : Forest) (vals : list (option Q)) : list Q :=
  map (decision_function forest) (dropna_values vals).

(** The 5th percentile of a column's scores. *)
Definition threshold (forest : Forest) (vals : list (option Q)) : Q :=
  percentile (outlier_scores forest vals) 5.

(** Sample by sample: is the score strictly below the threshold? *)
Definition flag_mask (forest : Forest) (vals : list (option Q)) : list bool :=
  map (fun s => Qltb s (threshold forest vals)) (outlier_scores forest vals).

(** The flagged samples: their dataset rows and their values. *)
Definition flagged_rows (forest : Forest) (vals : list (option Q)) : list nat :=
  boolean_index (flag_mask forest vals) (dropna_index vals).

Definition flagged_values (forest : Forest) (vals : list (option Q)) : list Q :=
  boolean_index (flag_mask forest vals) (dropna_values vals).

Definition outlier_record (name : string) (forest : Forest)
    (vals : list (option Q)) : Anomaly :=
  {| type := "Outlier (Numerical)";
     column := name;
     description :=
       "Potential outliers detected using Isolation Forest. Score below 5th percentile.";
     sample_values := map PyNum (head 3 (flagged_values forest vals));
     original_indices := Some (head 3 (flagged_rows forest vals)) |}.

(** The records pass 2 appends for one numerical column. *)
Definition outlier_records (col : string * list (option Q)) : list Anomaly :=
  let '(name, vals) := col in
  if eligible vals then
    match IsolationForest_fit 42 (dropna_values vals) with
    | Return forest =>
        match flagged_rows forest vals with
        | [] => []
        | _ :: _ => [outlier_record name forest vals]
        end
    | Raise _ => []
    end
  else [].

(** The lines pass 2 prints for one numerical column. *)
Definition outlier_log (col : string * list (option Q)) : list string :=
  let '(name, vals) := col in
  if eligible vals then
    match IsolationForest_fit 42 (dropna_values vals) with
    | Return _ => []
    | Raise e =>
        [("Could not run IsolationForest on " ++ name ++ ": " ++ exc_msg e)%string]
    end
  else [].

(** The exception, if any, that leaves pass 2 at one numerical column. *)
Definition outlier_escapes (col : string * list (option Q)) : option Exc :=
  let '(name, vals) := col in
  if eligible vals then
    match IsolationForest_fit 42 (dropna_values vals) with
    | Return _ => None
    | Raise e => if is_ValueError e then None else Some e
    end
  else None.

(** Row by row: does the email cell fail the pattern? *)
Definition invalid_mask (email : Series) : list bool :=
  map (fun v => negb (Re.is_email (astype_str v))) (tolist email).

Definition invalid_rows (email : Series) : list nat :=
  np_where (invalid_mask email).

Definition invalid_values (email : Series) : list PyValue :=
  boolean_index (invalid_mask email) (tolist email).

Definition email_record (email : Series) : Anomaly :=
  {| type := "Invalid Format (Email)";
     column := "email";
     description :=
       (Fmt.str_of_nat (length (invalid_rows email))
        ++ " rows with invalid email format found.")%string;
     sample_values := head 3 (invalid_values email);
     original_indices := Some (head 3 (invalid_rows email)) |}.

(** The records pass 3 appends. *)
Definition email_records (df : DataFrame) : list Anomaly :=
  match getitem df "email" with
  | Some email =>
      match invalid_rows email with
      | [] => []
      | _ :: _ => [email_record email]
      end
  | None => []
  end.



(** Records of one kind that name one column. *)
Definition is_record (kind name : string) (a : Anomaly) : bool :=
  String.eqb (type a) kind && String.eqb (column a) name.

(** The three passes side by side: pass 1 over the columns, pass 2 over
    the numerical columns, pass 3 on the email column. *)
Definition report (df : DataFrame) : list Anomaly :=
  flat_map (missing_records df) (columns df)
  ++ flat_map outlier_records (select_dtypes_number df)
  ++ email_records df.

Definition printed (df : DataFrame) : list string :=
  flat_map outlier_log (select_dtypes_number df).

(** The state after appending [records] and printing [lines]. *)
Definition extend (env : Env) (records : list Anomaly) (lines : list string) : Env :=
  {| anomalies := anomalies env ++ records; stdout := stdout env ++ lines |}.

(* ================================================================== *)
(** ** Lemmas on formatting *)

(** [round_half_even] returns a nearest integer: the quotient it returns
    is within half a unit of [num / den]. *)
Lemma round_half_even_nearest (num den : Z) :
  (0 < den)%Z ->
  (2 * Z.abs (num - Fmt.round_half_even num den * den) <= den)%Z.
Proof.
  intros Hden. unfold Fmt.round_half_even.
  pose proof (Z.mod_pos_bound num den Hden) as Hr.
  assert (Hdown : (num - num / den * den = num mod den)%Z)
    by (rewrite Z.mod_eq by lia; ring).
  assert (Hup : (num - (num / den + 1) * den = num mod den - den)%Z)
    by (rewrite Z.mod_eq by lia; ring).
  set (r := (num mod den)%Z) in *. clearbody r.
  destruct (Z.compare_spec (2 * r) den) as [Hcmp|Hcmp|Hcmp].
  - destruct (Z.even (num / den)); [rewrite Hdown|rewrite Hup]; lia.
  - rewrite Hdown. lia.
  - rewrite Hup. lia.
Qed.

(** On a tie [round_half_even] returns the even neighbour. *)
Lemma round_half_even_tie (num den : Z) :
  (0 < den)%Z -> (2 * (num mod den) = den)%Z ->
  Z.even (Fmt.round_half_even num den) = true.
Proof.
  intros Hden Htie. unfold Fmt.round_half_even.
  rewrite Htie, Z.compare_refl.
  destruct (Z.even (num / den)) eqn:He; [exact He|].
  rewrite Z.even_add, He. reflexivity.
Qed.

(* ================================================================== *)
(** ** Lemmas on masks and selections *)

(** *** Positions selected by a mask *)





Lemma where_from_length (mask : list bool) :
  forall i, length (where_from i mask) = sum mask.
Proof.
  unfold sum. induction mask as [|b mask IH]; intros i; simpl; [reflexivity|].
  destruct b; simpl; now rewrite IH.
Qed.

Lemma where_from_nil (mask : list bool) :
  forall i, where_from i mask = [] <-> any mask = false.
Proof.
  unfold any. induction mask as [|b mask IH]; intros i; simpl; [tauto|].
  destruct b; simpl; [split; discriminate|apply IH].
Qed.

Lemma any_sum (mask : list bool) : any mask = (0 <? sum mask).
Proof.
  unfold any, sum. induction mask as [|b mask IH]; simpl; [reflexivity|].
  destruct b; simpl; [reflexivity|exact IH].
Qed.

Lemma sum_le_length (mask : list bool) : sum mask <= length mask.
Proof. unfold sum. apply filter_length_le. Qed.

(** *** Selection by a mask *)

Lemma boolean_index_where {A : Type} (mask : list bool) :
  forall (l : list A) i, length mask <= length l ->
    Forall2 (fun k a => i <= k /\ nth_error l (k - i) = Some a)
            (where_from i mask) (boolean_index mask l).
Proof.
  induction mask as [|b mask IH]; intros l i Hlen; simpl; [constructor|].
  destruct l as [|a l]; simpl in Hlen; [lia|].
  assert (Htl : Forall2 (fun k x => i <= k /\ nth_error (a :: l) (k - i) = Some x)
                  (where_from (S i) mask) (boolean_index mask l)).
  { eapply Forall2_impl; [|apply (IH l (S i)); lia].
    intros k x [Hle Hn]. split; [lia|].
    replace (k - i) with (S (k - S i)) by lia. exact Hn. }
  destruct b; [|exact Htl]. constructor; [|exact Htl].
  split; [lia|]. now rewrite Nat.sub_diag.
Qed.


Lemma Forall2_boolean_index {A B : Type} (R : A -> B -> Prop) (mask : list bool) :
  forall l1 l2, Forall2 R l1 l2 ->
    Forall2 R (boolean_index mask l1) (boolean_index mask l2).
Proof.
  induction mask as [|b mask IH]; intros l1 l2 H; simpl; [constructor|].
  destruct H; [constructor|]. destruct b; [constructor|]; auto.
Qed.



Lemma boolean_index_length {A : Type} (mask : list bool) :
  forall (l : list A), length mask <= length l ->
    length (boolean_index mask l) = sum mask.
Proof.
  unfold sum. induction mask as [|b mask IH]; intros l H; simpl; [reflexivity|].
  destruct l as [|x l]; simpl in H; [lia|].
  destruct b; simpl; rewrite IH; auto; lia.
Qed.

(** *** [take]: [iloc] and [loc] *)

Lemma take_Forall2 {A : Type} (exc : ExcClass) (l : list A) :
  forall keys r, Forall2 (fun k a => nth_error l k = Some a) keys r ->
    take exc l keys = Return r.
Proof.
  induction 1 as [|k a keys r Hk _ IH]; simpl; [reflexivity|].
  now rewrite Hk, IH.
Qed.

Lemma take_where {A : Type} (exc : ExcClass) (mask : list bool) (l : list A) :
  length mask <= length l ->
  take exc l (np_where mask) = Return (boolean_index mask l).
Proof.
  intros H. apply take_Forall2.
  eapply Forall2_impl; [|apply (boolean_index_where mask l 0 H)].
  simpl. intros k a [_ Hn]. now rewrite Nat.sub_0_r in Hn.
Qed.


(* ================================================================== *)
(** ** Lemmas on [dropna] *)


Lemma dropna_from (vals : list (option Q)) :
  forall i,
    Forall2 (fun r x => i <= r /\ nth_error vals (r - i) = Some (Some x))
            (where_from i (notnull vals)) (dropna_values vals).
Proof.
  induction vals as [|c vals IH]; intros i; simpl; [constructor|].
  assert (Htl : Forall2 (fun r x => i <= r /\ nth_error (c :: vals) (r - i) = Some (Some x))
                  (where_from (S i) (notnull vals)) (dropna_values vals)).
  { eapply Forall2_impl; [|apply (IH (S i))].
    intros r x [Hle Hn]. split; [lia|].
    replace (r - i) with (S (r - S i)) by lia. exact Hn. }
  destruct c as [x|]; simpl; [|exact Htl].
  constructor; [|exact Htl]. split; [lia|]. now rewrite Nat.sub_diag.
Qed.

(** The labels and the values that [dropna] keeps are aligned: the
    [p]-th value that stays sits in the [p]-th row that stays. *)
Lemma dropna_aligned (vals : list (option Q)) :
  Forall2 (fun r x => nth_error vals r = Some (Some x))
          (dropna_index vals) (dropna_values vals).
Proof.
  eapply Forall2_impl; [|apply (dropna_from vals 0)].
  simpl. intros r x [_ H]. now rewrite Nat.sub_0_r in H.
Qed.

Lemma dropna_length (vals : list (option Q)) :
  length (dropna_index vals) = length (dropna_values vals).
Proof. eapply Forall2_length, dropna_aligned. Qed.




(* ================================================================== *)
(** ** The three passes, one column at a time *)

Lemma missing_values_body_app (df : DataFrame) (acc : list Anomaly) (col : Column) :
  missing_values_body df acc col = acc ++ missing_records df col.
Proof.
  unfold missing_records, missing_values_body.
  destruct (any (isnull (col_data col))); simpl; [reflexivity|].
  now rewrite app_nil_r.
Qed.

Lemma missing_pass (df : DataFrame) (cols : list Column) :
  forall acc,
    fold_left (missing_values_body df) cols acc
    = acc ++ flat_map (missing_records df) cols.
Proof.
  induction cols as [|col cols IH]; intros acc; simpl.
  - now rewrite app_nil_r.
  - now rewrite IH, missing_values_body_app, app_assoc.
Qed.

Lemma Forall2_map_r {A B C : Type} (R : A -> C -> Prop) (f : B -> C)
    (l1 : list A) (l2 : list B) :
  Forall2 (fun a b => R a (f b)) l1 l2 -> Forall2 R l1 (map f l2).
Proof. induction 1; simpl; constructor; auto. Qed.

Lemma flag_mask_length (forest : Forest) (vals : list (option Q)) :
  length (flag_mask forest vals) = length (dropna_values vals).
Proof. unfold flag_mask, outlier_scores. now rewrite !length_map. Qed.

Lemma flagged_aligned (forest : Forest) (vals : list (option Q)) :
  Forall2 (fun r x => nth_error vals r = Some (Some x))
          (flagged_rows forest vals) (flagged_values forest vals).
Proof. apply Forall2_boolean_index, dropna_aligned. Qed.

Lemma flagged_rows_length (forest : Forest) (vals : list (option Q)) :
  length (flagged_rows forest vals) = sum (flag_mask forest vals).
Proof.
  apply boolean_index_length. rewrite flag_mask_length, dropna_length. lia.
Qed.

(** The [try] block: when the fit returns, neither [iloc] nor [loc]
    raises, and the record holds the flagged rows and values. *)
Lemma outlier_try_spec (env : Env) (name : string) (vals : list (option Q)) :
  outlier_try env name vals (dropna_values vals)
  = match IsolationForest_fit 42 (dropna_values vals) with
    | Return forest =>
        Return match flagged_rows forest vals with
               | [] => env
               | _ :: _ => append env (outlier_record name forest vals)
               end
    | Raise e => Raise e
    end.
Proof.
  unfold outlier_try.
  destruct (IsolationForest_fit 42 (dropna_values vals)) as [forest|e];
    simpl; [|reflexivity].
  fold (outlier_scores forest vals). fold (threshold forest vals).
  fold (flag_mask forest vals).
  assert (Hlen : length (np_where (flag_mask forest vals))
                 = length (flagged_rows forest vals)).
  { unfold np_where. now rewrite where_from_length, flagged_rows_length. }
  rewrite Hlen.
  destruct (flagged_rows forest vals) as [|r rows] eqn:Hrows; [reflexivity|].
  cbn [length Nat.ltb Nat.leb].
  unfold iloc. rewrite take_where
    by (rewrite flag_mask_length, dropna_length; lia).
  cbn [bind]. fold (flagged_rows forest vals). rewrite Hrows.
  unfold loc.
  rewrite (take_Forall2 KeyError (map num_cell vals) (r :: rows)
             (map PyNum (flagged_values forest vals))).
  - unfold outlier_record, head. rewrite Hrows, <- firstn_map. reflexivity.
  - apply Forall2_map_r. rewrite <- Hrows.
    eapply Forall2_impl; [|apply flagged_aligned].
    intros k x Hk. rewrite nth_error_map, Hk. reflexivity.
Qed.

Lemma extend_nil (env : Env) : extend env [] [] = env.
Proof. destruct env. unfold extend. simpl. now rewrite !app_nil_r. Qed.

(** The body of the outlier loop only ever appends: what it appends and
    whether it raises depend on the column alone. *)
Lemma outlier_body_spec (env : Env) (col : string * list (option Q)) :
  outlier_body env col
  = match outlier_escapes col with
    | Some e => Raise e
    | None => Return (extend env (outlier_records col) (outlier_log col))
    end.
Proof.
  destruct col as [name vals].
  unfold outlier_body, outlier_escapes, outlier_records, outlier_log, eligible.
  destruct (1 <? nunique vals); simpl; [|now rewrite extend_nil].
  destruct (1 <? length (dropna_values vals)); simpl; [|now rewrite extend_nil].
  rewrite outlier_try_spec.
  destruct (IsolationForest_fit 42 (dropna_values vals)) as [forest|e].
  - destruct (flagged_rows forest vals); [now rewrite extend_nil|].
    unfold append, extend. simpl. now rewrite app_nil_r.
  - destruct (is_ValueError e); [|reflexivity].
    unfold print, extend. simpl. now rewrite app_nil_r.
Qed.

Lemma extend_extend (env : Env) (r1 r2 : list Anomaly) (l1 l2 : list string) :
  extend (extend env r1 l1) r2 l2 = extend env (r1 ++ r2) (l1 ++ l2).
Proof. unfold extend. simpl. now rewrite !app_assoc. Qed.

Lemma outlier_pass_returns (cols : list (string * list (option Q))) :
  (forall col, In col cols -> outlier_escapes col = None) ->
  forall env,
    for_each outlier_body cols env
    = Return (extend env (flat_map outlier_records cols) (flat_map outlier_log cols)).
Proof.
  induction cols as [|col cols IH]; intros Hnone env; simpl.
  - now rewrite extend_nil.
  - rewrite outlier_body_spec, (Hnone col) by (now left). cbn [bind].
    rewrite IH by (intros c Hc; apply Hnone; now right).
    now rewrite extend_extend.
Qed.

Lemma outlier_pass_inv (cols : list (string * list (option Q))) :
  forall env env', for_each outlier_body cols env = Return env' ->
    forall col, In col cols -> outlier_escapes col = None.
Proof.
  induction cols as [|c cols IH]; intros env env' Hrun col Hin; [destruct Hin|].
  simpl in Hrun. rewrite outlier_body_spec in Hrun.
  destruct (outlier_escapes c) as [e|] eqn:Hc; [discriminate|].
  cbn [bind] in Hrun. destruct Hin as [<-|Hin]; [exact Hc|].
  eapply IH; eauto.
Qed.


Lemma email_check_spec (df : DataFrame) (env : Env) :
  email_check df env = extend env (email_records df) [].
Proof.
  unfold email_check, email_records.
  destruct (getitem df "email") as [email|]; [|now rewrite extend_nil].
  rewrite map_map.
  fold (invalid_mask email). fold (invalid_rows email). fold (invalid_values email).
  destruct (invalid_rows email) as [|r rows] eqn:Hrows; simpl;
    [now rewrite extend_nil|].
  unfold append, extend, email_record. simpl. rewrite Hrows, app_nil_r.
  reflexivity.
Qed.

(** [detect_anomalies] returns exactly when no exception leaves pass 2,
    and then the report is the three passes side by side. *)
Lemma detect_anomalies_returns (df : DataFrame) :
  (forall col, In col (select_dtypes_number df) -> outlier_escapes col = None) ->
  detect_anomalies df = Return {| anomalies := report df; stdout := printed df |}.
Proof.
  intros Hnone. unfold detect_anomalies.
  rewrite missing_pass, outlier_pass_returns by exact Hnone.
  cbn [bind]. rewrite email_check_spec, extend_extend.
  unfold extend, report, printed. simpl. now rewrite app_nil_r, app_assoc.
Qed.

Lemma detect_anomalies_inv (df : DataFrame) (env : Env) :
  detect_anomalies df = Return env ->
  env = {| anomalies := report df; stdout := printed df |}
  /\ forall col, In col (select_dtypes_number df) -> outlier_escapes col = None.
Proof.
  intros Hrun.
  assert (Hnone : forall col, In col (select_dtypes_number df) ->
                              outlier_escapes col = None).
  { unfold detect_anomalies in Hrun.
    destruct (for_each outlier_body (select_dtypes_number df) _) as [env0|e] eqn:Hpass;
      [|discriminate].
    eapply outlier_pass_inv; eauto. }
  split; [|exact Hnone].
  rewrite (detect_anomalies_returns df Hnone) in Hrun. now injection Hrun.
Qed.



(* ================================================================== *)
(** ** Records by kind and column *)

Lemma missing_records_kind (df : DataFrame) (col : Column) (a : Anomaly) :
  In a (missing_records df col) ->
  type a = "Missing Values" /\ column a = col_name col.
Proof.
  unfold missing_records, missing_values_body.
  destruct (any (isnull (col_data col))); simpl; [|tauto].
  intros [<-|[]]. auto.
Qed.

Lemma outlier_records_kind (col : string * list (option Q)) (a : Anomaly) :
  In a (outlier_records col) ->
  type a = "Outlier (Numerical)" /\ column a = fst col.
Proof.
  destruct col as [name vals]. unfold outlier_records.
  destruct (eligible vals); [|intros []].
  destruct (IsolationForest_fit 42 (dropna_values vals)) as [forest|e]; [|intros []].
  destruct (flagged_rows forest vals); [intros []|].
  intros [<-|[]]. auto.
Qed.

Lemma email_records_kind (df : DataFrame) (a : Anomaly) :
  In a (email_records df) ->
  type a = "Invalid Format (Email)" /\ column a = "email".
Proof.
  unfold email_records.
  destruct (getitem df "email") as [email|]; [|intros []].
  destruct (invalid_rows email); [intros []|].
  intros [<-|[]]. auto.
Qed.

Lemma filter_all {A : Type} (p : A -> bool) (l : list A) :
  (forall a, In a l -> p a = true) -> filter p l = l.
Proof.
  induction l as [|x l IH]; intros H; simpl; [reflexivity|].
  rewrite (H x) by (now left). f_equal. apply IH. intros a Ha. apply H. now right.
Qed.

Lemma filter_none {A : Type} (p : A -> bool) (l : list A) :
  (forall a, In a l -> p a = false) -> filter p l = [].
Proof.
  induction l as [|x l IH]; intros H; simpl; [reflexivity|].
  rewrite (H x) by (now left). apply IH. intros a Ha. apply H. now right.
Qed.

Lemma is_record_true (kind name : string) (a : Anomaly) :
  type a = kind -> column a = name -> is_record kind name a = true.
Proof. intros <- <-. unfold is_record. now rewrite !String.eqb_refl. Qed.

Lemma is_record_other_kind (kind kind' name : string) (a : Anomaly) :
  type a = kind' -> kind' <> kind -> is_record kind name a = false.
Proof.
  intros <- Hne. unfold is_record.
  destruct (String.eqb_spec (type a) kind); [contradiction|reflexivity].
Qed.

Lemma is_record_other_column (kind name name' : string) (a : Anomaly) :
  column a = name' -> name' <> name -> is_record kind name a = false.
Proof.
  intros <- Hne. unfold is_record.
  destruct (String.eqb_spec (column a) name); [contradiction|].
  now rewrite andb_false_r.
Qed.

(** With unique keys, the records of one kind that name one key are the
    records its own item contributed. *)
Lemma filter_flat_map_key {X : Type} (key : X -> string) (kind : string)
    (f : X -> list Anomaly) :
  (forall x a, In a (f x) -> type a = kind /\ column a = key x) ->
  forall xs, NoDup (map key xs) ->
    forall x, In x xs ->
      filter (is_record kind (key x)) (flat_map f xs) = f x.
Proof.
  intros Hf. induction xs as [|x0 xs IH]; intros Hnd x Hin; [destruct Hin|].
  simpl in Hnd. inversion Hnd as [|? ? Hnotin Hnd']; subst.
  simpl. rewrite filter_app. destruct Hin as [->|Hin].
  - rewrite filter_all, filter_none.
    + now rewrite app_nil_r.
    + intros a Ha. apply in_flat_map in Ha. destruct Ha as (x' & Hx' & Ha).
      apply (is_record_other_column _ _ (key x')); [apply (Hf x' a Ha)|].
      intros Heq. apply Hnotin. rewrite <- Heq. now apply in_map.
    + intros a Ha. destruct (Hf x a Ha). now apply is_record_true.
  - rewrite IH by assumption. rewrite filter_none; [reflexivity|].
    intros a Ha. apply (is_record_other_column _ _ (key x0)); [apply (Hf x0 a Ha)|].
    intros Heq. apply Hnotin. rewrite Heq. now apply in_map.
Qed.

Lemma select_dtypes_number_In (df : DataFrame) (name : string)
    (vals : list (option Q)) :
  In (name, vals) (select_dtypes_number df)
  <-> In {| col_name := name; col_data := NumSeries vals |} (columns df).
Proof.
  unfold select_dtypes_number. rewrite in_flat_map. split.
  - intros ([n s] & Hin & Hc). simpl in Hc.
    destruct s; simpl in Hc; try contradiction.
    destruct Hc as [Heq|[]]. now injection Heq as -> ->.
  - intros Hin. eexists. split; [exact Hin|]. simpl. now left.
Qed.

Lemma select_dtypes_number_NoDup (df : DataFrame) :
  NoDup (map col_name (columns df)) ->
  NoDup (map fst (select_dtypes_number df)).
Proof.
  unfold select_dtypes_number.
  induction (columns df) as [|[n s] cols IH]; intros Hnd; simpl; [constructor|].
  simpl in Hnd. inversion Hnd as [|? ? Hnotin Hnd']; subst.
  destruct s; simpl; auto.
  constructor; [|auto]. intros Hin. apply Hnotin.
  apply in_map_iff in Hin. destruct Hin as ([n' v'] & Hn' & Hin). simpl in Hn'. subst n'.
  apply in_flat_map in Hin. destruct Hin as ([n'' s''] & Hin & Hc).
  simpl in Hc. destruct s''; simpl in Hc; try contradiction.
  destruct Hc as [Heq|[]]. injection Heq as -> ->.
  apply in_map_iff. eexists. split; [|exact Hin]. reflexivity.
Qed.

Lemma getitem_In (df : DataFrame) (label : string) (s : Series) :
  getitem df label = Some s ->
  In {| col_name := label; col_data := s |} (columns df).
Proof.
  unfold getitem.
  destruct (find _ (columns df)) as [[n d]|] eqn:Hfind; [|discriminate].
  simpl. intros Heq. injection Heq as ->.
  apply find_some in Hfind. destruct Hfind as [Hin Hname]. simpl in Hname.
  apply String.eqb_eq in Hname. now subst n.
Qed.


(** The three parts of the report, filtered by kind. *)
Lemma report_missing_filter (df : DataFrame) (col : Column) :
  NoDup (map col_name (columns df)) -> In col (columns df) ->
  filter (is_record "Missing Values" (col_name col)) (report df)
  = missing_records df col.
Proof.
  intros Hnd Hin. unfold report. rewrite !filter_app.
  rewrite (filter_flat_map_key col_name "Missing Values" (missing_records df)
             (missing_records_kind df) (columns df) Hnd col Hin).
  rewrite !filter_none; [now rewrite !app_nil_r| |].
  - intros a Ha. apply email_records_kind in Ha.
    apply (is_record_other_kind _ "Invalid Format (Email)"); [tauto|discriminate].
  - intros a Ha. apply in_flat_map in Ha. destruct Ha as (c & _ & Ha).
    apply outlier_records_kind in Ha.
    apply (is_record_other_kind _ "Outlier (Numerical)"); [tauto|discriminate].
Qed.

Lemma report_outlier_filter (df : DataFrame) (col : string * list (option Q)) :
  NoDup (map col_name (columns df)) -> In col (select_dtypes_number df) ->
  filter (is_record "Outlier (Numerical)" (fst col)) (report df)
  = outlier_records col.
Proof.
  intros Hnd Hin. unfold report. rewrite !filter_app.
  rewrite (filter_flat_map_key fst "Outlier (Numerical)" outlier_records
             outlier_records_kind (select_dtypes_number df)
             (select_dtypes_number_NoDup df Hnd) col Hin).
  rewrite !filter_none; [now rewrite app_nil_r| |].
  - intros a Ha. apply email_records_kind in Ha.
    apply (is_record_other_kind _ "Invalid Format (Email)"); [tauto|discriminate].
  - intros a Ha. apply in_flat_map in Ha. destruct Ha as (c & _ & Ha).
    apply missing_records_kind in Ha.
    apply (is_record_other_kind _ "Missing Values"); [tauto|discriminate].
Qed.

Lemma report_email_filter (df : DataFrame) :
  filter (is_record "Invalid Format (Email)" "email") (report df)
  = email_records df.
Proof.
  unfold report. rewrite !filter_app.
  rewrite (filter_all _ (email_records df)).
  - rewrite !filter_none; [reflexivity| |].
    + intros a Ha. apply in_flat_map in Ha. destruct Ha as (c & _ & Ha).
      apply outlier_records_kind in Ha.
      apply (is_record_other_kind _ "Outlier (Numerical)"); [tauto|discriminate].
    + intros a Ha. apply in_flat_map in Ha. destruct Ha as (c & _ & Ha).
      apply missing_records_kind in Ha.
      apply (is_record_other_kind _ "Missing Values"); [tauto|discriminate].
  - intros a Ha. apply email_records_kind in Ha. apply is_record_true; tauto.
Qed.


(* ================================================================== *)
(** ** Lemmas on [percentile] *)


Lemma Qltb_ge (x y : Q) : Qltb x y = false <-> (y <= x)%Q.
Proof.
  unfold Qltb. rewrite negb_false_iff. apply Qle_bool_iff.
Qed.



Lemma sort_length (l : list Q) : length (sort l) = length l.
Proof.
  induction l as [|y l IH]; simpl; [reflexivity|]. rewrite <- IH.
  generalize (sort l) as s. induction s as [|z s IHs]; simpl; [reflexivity|].
  destruct (Qle_bool y z); simpl; [reflexivity|]. now rewrite IHs.
Qed.







(* ================================================================== *)
(** ** Lemmas on the flagged samples *)






Lemma nunique_constant (x : Q) (n : nat) : nunique (repeat (Some x) n) <= 1.
Proof.
  unfold nunique.
  assert (Hd : dropna_values (repeat (Some x) n) = repeat x n).
  { induction n as [|n IH]; simpl; [reflexivity|]. now rewrite IH. }
  rewrite Hd. destruct n as [|n]; simpl; [lia|].
  assert (Hseen : forall k, distinct [x] (repeat x k) = [x]).
  { induction k as [|k IH]; simpl; [reflexivity|].
    assert (Hx : Qeq_bool x x = true) by (apply Qeq_bool_iff; reflexivity).
    now rewrite Hx. }
  rewrite Hseen. simpl. lia.
Qed.

Lemma eligible_true (vals : list (option Q)) :
  eligible vals = true <-> 1 < nunique vals /\ 2 <= length (dropna_values vals).
Proof.
  unfold eligible. rewrite andb_true_iff, !Nat.ltb_lt. lia.
Qed.

Lemma not_eligible_skipped (env0 : Env) (name : string) (vals : list (option Q)) :
  eligible vals = false -> outlier_body env0 (name, vals) = Return env0.
Proof.
  intros He. rewrite outlier_body_spec.
  unfold outlier_escapes, outlier_records, outlier_log. rewrite He.
  now rewrite extend_nil.
Qed.

Lemma report_In (df : DataFrame) (a : Anomaly) :
  In a (report df) <->
  (exists col, In col (columns df) /\ In a (missing_records df col))
  \/ (exists col, In col (select_dtypes_number df) /\ In a (outlier_records col))
  \/ In a (email_records df).
Proof. unfold report. rewrite !in_app_iff, !in_flat_map. tauto. Qed.


(* ================================================================== *)
(** ** Properties of [detect_anomalies] *)



(** C3.  Eligibility for the outlier detector.  On a well-formed dataset
    on which [detect_anomalies] returns: a numerical column with at most one
    distinct present value, or with fewer than 2 present samples, leaves the
    loop body without a record, a printed line or an exception, whatever the
    model would do, and the report holds no "Outlier (Numerical)" record for
    it; every "Outlier (Numerical)" record of the report names a numerical
    column with more than one distinct present value and at least 2 present
    samples; and a column of [n] copies of one value is never eligible. *)
Theorem outlier_detector_skips_ineligible (df : DataFrame) (env : Env) :
  well_formed df ->
  detect_anomalies df = Return env ->
  (forall name vals,
     In (name, vals) (select_dtypes_number df) ->
     nunique vals <= 1 \/ length (dropna_values vals) < 2 ->
     (forall env0, outlier_body env0 (name, vals) = Return env0)
     /\ filter (is_record "Outlier (Numerical)" name) (anomalies env) = [])
  /\ (forall a, In a (anomalies env) -> type a = "Outlier (Numerical)" ->
      exists vals,
        In {| col_name := column a; col_data := NumSeries vals |} (columns df)
        /\ 1 < nunique vals /\ 2 <= length (dropna_values vals))
  /\ (forall x n, eligible (repeat (Some x) n) = false).
Proof.
  intros [_ Hnd] Hrun.
  destruct (detect_anomalies_inv df env Hrun) as [-> _]. cbn [anomalies].
  split; [|split].
  - intros name vals Hin Hskip.
    assert (He : eligible vals = false).
    { destruct (eligible vals) eqn:E; [|reflexivity].
      apply eligible_true in E. lia. }
    split; [intros env0; now apply not_eligible_skipped|].
    pose proof (report_outlier_filter df (name, vals) Hnd Hin) as Hfilter.
    cbn [fst] in Hfilter. rewrite Hfilter. unfold outlier_records. now rewrite He.
  - intros a Ha Hkind. apply report_In in Ha.
    destruct Ha as [(col & _ & Ha)|[([name vals] & Hin & Ha)|Ha]].
    + apply missing_records_kind in Ha. destruct Ha as [Ht _].
      rewrite Ht in Hkind. discriminate.
    + destruct (outlier_records_kind _ _ Ha) as [_ Hcol]. cbn [fst] in Hcol.
      exists vals. rewrite Hcol. split; [now apply select_dtypes_number_In|].
      apply eligible_true. unfold outlier_records in Ha.
      destruct (eligible vals); [reflexivity|destruct Ha].
    + apply email_records_kind in Ha. destruct Ha as [Ht _].
      rewrite Ht in Hkind. discriminate.
  - intros x n. pose proof (nunique_constant x n) as Hn. unfold eligible.
    destruct (1 <? nunique (repeat (Some x) n)) eqn:E; [|reflexivity].
    apply Nat.ltb_lt in E. lia.
Qed.







(** C5 (amended).  A [ValueError] of the fit is a skip.  If, on every
    eligible numerical column, the fit either returns or raises a
    [ValueError], then [detect_anomalies] returns the full report of the
    three passes; and at a column whose fit raises a [ValueError] the loop
    body returns normally, having printed one line and appended nothing, so
    the column contributes no record and the loop goes on.  Under that
    condition no exception leaves [detect_anomalies]. *)
Theorem value_error_is_skipped (df : DataFrame) :
  (forall name vals e,
     In (name, vals) (select_dtypes_number df) ->
     eligible vals = true ->
     IsolationForest_fit 42 (dropna_values vals) = Raise e ->
     is_ValueError e = true) ->
  detect_anomalies df = Return {| anomalies := report df; stdout := printed df |}
  /\ (forall name vals e env0,
        In (name, vals) (select_dtypes_number df) ->
        eligible vals = true ->
        IsolationForest_fit 42 (dropna_values vals) = Raise e ->
        outlier_body env0 (name, vals)
        = Return (print ("Could not run IsolationForest on " ++ name
                         ++ ": " ++ exc_msg e)%string env0)
        /\ outlier_records (name, vals) = [])
  /\ (forall e', detect_anomalies df <> Raise e').
Proof.
  intros Hvalue.
  assert (Hnone : forall col, In col (select_dtypes_number df) ->
                              outlier_escapes col = None).
  { intros [name vals] Hin. unfold outlier_escapes.
    destruct (eligible vals) eqn:He; [|reflexivity].
    destruct (IsolationForest_fit 42 (dropna_values vals)) as [forest|e] eqn:Hfit;
      [reflexivity|].
    now rewrite (Hvalue name vals e Hin He Hfit). }
  split; [now apply detect_anomalies_returns|].
  split.
  - intros name vals e env0 Hin He Hfit.
    pose proof (Hvalue name vals e Hin He Hfit) as Hv.
    split.
    + rewrite outlier_body_spec.
      unfold outlier_escapes, outlier_records, outlier_log.
      rewrite He, Hfit, Hv. unfold print, extend. now rewrite app_nil_r.
    + unfold outlier_records. now rewrite He, Hfit.
  - intros e' Hraise. rewrite (detect_anomalies_returns df Hnone) in Hraise.
    discriminate.
Qed.



Lemma flat_map_nil_all {A B : Type} (f : A -> list B) (l : list A) :
  (forall a, In a l -> f a = []) -> flat_map f l = [].
Proof.
  induction l as [|x l IH]; intros H; simpl; [reflexivity|].
  rewrite (H x) by (now left). apply IH. intros a Ha. apply H. now right.
Qed.



(** C9.  Order of the report.  When [detect_anomalies] returns, the report
    is the records of the missing-value pass over the columns in column
    order, followed by the records of the outlier pass over the numerical
    columns in column order, followed by the records of the email check;
    every record a pass contributes is in the report, so a column named by
    two passes appears twice. *)
Theorem report_in_detector_then_column_order (df : DataFrame) (env : Env) :
  detect_anomalies df = Return env ->
  anomalies env
  = flat_map (missing_records df) (columns df)
    ++ flat_map outlier_records (select_dtypes_number df)
    ++ email_records df
  /\ length (anomalies env)
     = length (flat_map (missing_records df) (columns df))
       + length (flat_map outlier_records (select_dtypes_number df))
       + length (email_records df)
  /\ (forall col a, In col (columns df) -> In a (missing_records df col) ->
                    In a (anomalies env))
  /\ (forall col a, In col (select_dtypes_number df) ->
                    In a (outlier_records col) -> In a (anomalies env))
  /\ (forall a, In a (email_records df) -> In a (anomalies env)).
Proof.
  intros Hrun.
  destruct (detect_anomalies_inv df env Hrun) as [-> _]. cbn [anomalies].
  split; [reflexivity|]. split.
  - unfold report. rewrite !length_app. lia.
  - repeat split; intros; apply report_In; eauto.
Qed.

Lemma well_formed_no_rows (df : DataFrame) (col : Column) :
  well_formed df -> nrows df = 0 -> In col (columns df) ->
  tolist (col_data col) = [].
Proof.
  intros [Hlen _] Hzero Hin. apply length_zero_iff_nil.
  rewrite (Hlen col Hin). exact Hzero.
Qed.

Lemma any_true_nonempty (mask : list bool) : any mask = true -> 0 < length mask.
Proof. destruct mask; simpl; [discriminate|lia]. Qed.

(** C10.  Empty reports.  On a well-formed dataset: with zero rows
    [detect_anomalies] returns the empty report, prints nothing and raises
    nothing, whatever the model would do; when no column has an absent cell,
    every eligible numerical column is either fitted with no sample below
    the threshold or rejected with a [ValueError], and every cell of the
    email column matches the pattern, [detect_anomalies] returns the empty
    report; and whenever the guard of the percentage computation holds for a
    column, the row count it divides by is positive. *)
Theorem empty_report_without_findings (df : DataFrame) :
  well_formed df ->
  (nrows df = 0 ->
   detect_anomalies df = Return {| anomalies := []; stdout := [] |})
  /\ ((forall col, In col (columns df) -> any (isnull (col_data col)) = false) ->
      (forall name vals, In (name, vals) (select_dtypes_number df) ->
         eligible vals = true ->
         (exists forest,
            IsolationForest_fit 42 (dropna_values vals) = Return forest
            /\ flagged_rows forest vals = [])
         \/ (exists e,
               IsolationForest_fit 42 (dropna_values vals) = Raise e
               /\ is_ValueError e = true)) ->
      (forall email v, getitem df "email" = Some email ->
         In v (tolist email) -> Re.is_email (astype_str v) = true) ->
      exists env, detect_anomalies df = Return env /\ anomalies env = [])
  /\ (forall col, In col (columns df) ->
        any (isnull (col_data col)) = true -> 0 < len df).
Proof.
  intros Hwf. split; [|split].
  - intros Hzero.
    assert (Hnum : forall name vals, In (name, vals) (select_dtypes_number df) ->
                                     vals = []).
    { intros name vals Hin. apply select_dtypes_number_In in Hin.
      pose proof (well_formed_no_rows df _ Hwf Hzero Hin) as Hnil.
      cbn [col_data tolist] in Hnil. now apply map_eq_nil in Hnil. }
    rewrite detect_anomalies_returns.
    + f_equal. f_equal.
      * unfold report.
        assert (H1 : flat_map (missing_records df) (columns df) = []).
        { apply flat_map_nil_all. intros col Hin.
          unfold missing_records, missing_values_body, isnull.
          now rewrite (well_formed_no_rows df col Hwf Hzero Hin). }
        assert (H2 : flat_map outlier_records (select_dtypes_number df) = []).
        { apply flat_map_nil_all. intros [name vals] Hin.
          now rewrite (Hnum name vals Hin). }
        assert (H3 : email_records df = []).
        { unfold email_records.
          destruct (getitem df "email") as [email|] eqn:Hget; [|reflexivity].
          apply getitem_In in Hget.
          pose proof (well_formed_no_rows df _ Hwf Hzero Hget) as Hnil.
          cbn [col_data] in Hnil. unfold invalid_rows, invalid_mask.
          now rewrite Hnil. }
        now rewrite H1, H2, H3.
      * unfold printed. apply flat_map_nil_all. intros [name vals] Hin.
        now rewrite (Hnum name vals Hin).
    + intros [name vals] Hin. now rewrite (Hnum name vals Hin).
  - intros Hmissing Houtlier Hemail.
    exists {| anomalies := report df; stdout := printed df |}. split.
    + apply detect_anomalies_returns. intros [name vals] Hin.
      unfold outlier_escapes. destruct (eligible vals) eqn:He; [|reflexivity].
      destruct (Houtlier name vals Hin He) as [(forest & -> & _)|(e & -> & ->)];
        reflexivity.
    + cbn [anomalies]. unfold report.
      assert (H1 : flat_map (missing_records df) (columns df) = []).
      { apply flat_map_nil_all. intros col Hin.
        unfold missing_records, missing_values_body.
        now rewrite (Hmissing col Hin). }
      assert (H2 : flat_map outlier_records (select_dtypes_number df) = []).
      { apply flat_map_nil_all. intros [name vals] Hin. unfold outlier_records.
        destruct (eligible vals) eqn:He; [|reflexivity].
        destruct (Houtlier name vals Hin He) as [(forest & -> & ->)|(e & -> & _)];
          reflexivity. }
      assert (H3 : email_records df = []).
      { unfold email_records.
        destruct (getitem df "email") as [email|] eqn:Hget; [|reflexivity].
        assert (Hrows : invalid_rows email = []).
        { apply where_from_nil. unfold any, invalid_mask.
          apply not_true_is_false. intros Hex.
          apply existsb_exists in Hex. destruct Hex as (b & Hb & ->).
          apply in_map_iff in Hb. destruct Hb as (v & Hv & Hin).
          rewrite (Hemail email v eq_refl Hin) in Hv. discriminate. }
        now rewrite Hrows. }
      now rewrite H1, H2, H3.
  - intros col Hin Hany. destruct Hwf as [Hlen _]. unfold len.
    rewrite <- (Hlen col Hin). apply any_true_nonempty in Hany.
    unfold isnull in Hany. now rewrite length_map in Hany.
Qed.

End DataProcessor.

(* ================================================================== *)
(** ** Determinism *)



(* ================================================================== *)
(** ** The properties on the sample datasets *)

Lemma unique_NoDup (labels : list string) : unique labels = true -> NoDup labels.
Proof.
  induction labels as [|x labels IH]; simpl; intros H; [constructor|].
  apply andb_true_iff in H. destruct H as [Hx Hrest].
  constructor; [|auto]. intros Hin.
  apply negb_true_iff in Hx.
  assert (Hex : existsb (String.eqb x) labels = true).
  { apply existsb_exists. exists x. split; [exact Hin|apply String.eqb_refl]. }
  congruence.
Qed.

Lemma well_formedb_sound (df : DataFrame) : well_formedb df = true -> well_formed df.
Proof.
  unfold well_formedb, well_formed. intros H.
  apply andb_true_iff in H. destruct H as [Hlen Huniq]. split.
  - intros c Hc. rewrite forallb_forall in Hlen.
    apply Nat.eqb_eq. exact (Hlen c Hc).
  - now apply unique_NoDup.
Qed.

Module OnSamples.

Import Sample.

Lemma people_run :
  detect_anomalies num_str Forest fit decision_function people
  = Return {| anomalies := report num_str Forest fit decision_function people;
              stdout := printed Forest fit people |}.
Proof. vm_compute. reflexivity. Qed.



(** C3 on [people]: the level column is ten copies of 5. *)
Lemma outlier_detector_skips_ineligible_witness :
  filter (is_record "Outlier (Numerical)" "level")
         (report num_str Forest fit decision_function people) = []
  /\ eligible (repeat (Some (inject_Z 5)) 10) = false.
Proof.
  destruct (outlier_detector_skips_ineligible num_str Forest fit decision_function
              people _ (well_formedb_sound people eq_refl) people_run)
    as (Hskip & _ & Hconstant).
  split; [|apply Hconstant].
  assert (Hfew : nunique (repeat (num 5) 10) <= 1
                 \/ length (dropna_values (repeat (num 5) 10)) < 2).
  { left. vm_compute. lia. }
  destruct (Hskip "level" (repeat (num 5) 10)
              (or_intror (or_introl eq_refl)) Hfew) as [_ Hnone].
  exact Hnone.
Defined.



(** C5 on [people] with a fit that rejects every input: the report is
    returned, with no outlier record and one printed line per eligible
    column. *)
Lemma value_error_is_skipped_witness :
  detect_anomalies num_str Forest fit_rejects decision_function people
  = Return {| anomalies := report num_str Forest fit_rejects decision_function people;
              stdout := printed Forest fit_rejects people |}
  /\ outlier_records Forest fit_rejects decision_function
       ("age", example_outlier_column) = []
  /\ printed Forest fit_rejects people
     = ["Could not run IsolationForest on age: Input X contains infinity or a value too large for dtype('float32')."].
Proof.
  assert (Hvalue : forall name vals e,
            In (name, vals) (select_dtypes_number people) ->
            eligible vals = true ->
            fit_rejects 42%Z (dropna_values vals) = Raise e ->
            is_ValueError e = true).
  { intros name vals e _ _ Hfit. unfold fit_rejects in Hfit.
    injection Hfit as <-. reflexivity. }
  destruct (value_error_is_skipped num_str Forest fit_rejects decision_function
              people Hvalue) as (Hrun & Hskip & _).
  split; [exact Hrun|]. split; [|vm_compute; reflexivity].
  destruct (Hskip "age" example_outlier_column
              (mkExc ValueError
                 "Input X contains infinity or a value too large for dtype('float32').")
              {| anomalies := []; stdout := [] |}
              (or_introl eq_refl) eq_refl eq_refl) as [_ Hnone].
  exact Hnone.
Defined.

(** C5 as the spec words it fails on [two_values]: a fit that raises
    [MemoryError] is not caught, and no report is returned. *)
Lemma memory_error_aborts_detection :
  detect_anomalies num_str Forest fit_out_of_memory decision_function two_values
  = Raise (mkExc MemoryError "Unable to allocate array")
  /\ ~ exists env,
        detect_anomalies num_str Forest fit_out_of_memory decision_function two_values
        = Return env.
Proof.
  split; [vm_compute; reflexivity|].
  intros [env Henv]. vm_compute in Henv. discriminate.
Qed.




(** C9 on [people]: the email column is named by the first and by the last
    record, with the outlier record of the age column between them. *)
Lemma report_in_detector_then_column_order_witness :
  map (fun a => (type a, column a))
      (report num_str Forest fit decision_function people)
  = [ ("Missing Values", "email");
      ("Outlier (Numerical)", "age");
      ("Invalid Format (Email)", "email") ].
Proof.
  destruct (report_in_detector_then_column_order num_str Forest fit
              decision_function people _ people_run) as (Horder & _).
  cbn [anomalies] in Horder. rewrite Horder. vm_compute. reflexivity.
Defined.

(** C10 on [no_rows] and [clean]: both give the empty report. *)
Lemma empty_report_without_findings_witness :
  detect_anomalies num_str Forest fit_out_of_memory decision_function no_rows
  = Return {| anomalies := []; stdout := [] |}
  /\ exists env,
       detect_anomalies num_str Forest fit decision_function clean = Return env
       /\ anomalies env = [].
Proof.
  destruct (empty_report_without_findings num_str Forest fit_out_of_memory
              decision_function no_rows (well_formedb_sound no_rows eq_refl))
    as (Hzero & _ & _).
  destruct (empty_report_without_findings num_str Forest fit
              decision_function clean (well_formedb_sound clean eq_refl))
    as (_ & Hclean & _).
  split; [exact (Hzero eq_refl)|].
  apply Hclean.
  - intros col Hin.
    repeat (destruct Hin as [<-|Hin]; [reflexivity|]). destruct Hin.
  - intros name vals Hin He.
    repeat (destruct Hin as [Heq|Hin];
            [injection Heq as <- <-; vm_compute in He; discriminate|]).
    destruct Hin.
  - intros email v Hget Hin. vm_compute in Hget. injection Hget as <-.
    repeat (destruct Hin as [<-|Hin]; [vm_compute; reflexivity|]). destruct Hin.
Defined.

End OnSamples.

(* ================================================================== *)
(** ** The email pattern *)

Module ReFacts.

Import Re ReSem.

Lemma append_nil_r (s : string) : (s ++ "")%string = s.
Proof. induction s as [|c s IH]; simpl; [reflexivity|now rewrite IH]. Qed.

Lemma append_assoc (s1 s2 s3 : string) :
  ((s1 ++ s2) ++ s3)%string = (s1 ++ (s2 ++ s3))%string.
Proof. induction s1 as [|c s1 IH]; simpl; [reflexivity|now rewrite IH]. Qed.

Lemma append_eq_nil (s1 s2 : string) :
  (s1 ++ s2)%string = EmptyString -> s1 = EmptyString /\ s2 = EmptyString.
Proof. destruct s1; simpl; [auto|discriminate]. Qed.

Lemma nullable_matches (r : regex) :
  nullable r = true <-> matches r EmptyString.
Proof.
  split.
  - induction r as [| |p|r1 IH1 r2 IH2|r1 IH1 r2 IH2|r IH]; simpl; intros H;
      try discriminate.
    + constructor.
    + apply andb_true_iff in H. destruct H as [H1 H2].
      change EmptyString with (EmptyString ++ EmptyString)%string.
      constructor; auto.
    + apply orb_true_iff in H. destruct H as [H|H];
        [apply MAltL|apply MAltR]; auto.
    + constructor.
  - intros H. remember EmptyString as s eqn:Hs.
    induction H as [|p c Hp|r1 r2 s1 s2 H1 IH1 H2 IH2|r1 r2 s H IH|r1 r2 s H IH
                   |r|r s1 s2 H1 IH1 H2 IH2]; simpl; try reflexivity.
    + discriminate.
    + apply append_eq_nil in Hs. destruct Hs as [-> ->].
      now rewrite IH1, IH2.
    + now rewrite IH.
    + rewrite IH by assumption. apply orb_true_r.
Qed.

(** A non-empty match of [Star r] starts with a non-empty match of [r]. *)
Lemma matches_star_cons (r : regex) (c : ascii) (s : string) :
  matches (Star r) (String c s) ->
  exists s1 s2, s = (s1 ++ s2)%string
                /\ matches r (String c s1) /\ matches (Star r) s2.
Proof.
  intros H. remember (Star r) as r' eqn:Hr. remember (String c s) as t eqn:Ht.
  revert s Ht.
  induction H as [|p c' Hp|r1 r2 s1 s2 H1 IH1 H2 IH2|r1 r2 s' H IH|r1 r2 s' H IH
                 |r0|r0 s1 s2 H1 IH1 H2 IH2]; intros s Ht; try discriminate.
  injection Hr as ->. destruct s1 as [|c1 s1].
  - simpl in Ht. apply IH2; auto.
  - simpl in Ht. injection Ht as -> <-. exists s1, s2. auto.
Qed.

Lemma matches_cat (r1 r2 : regex) (s : string) :
  matches (Cat r1 r2) s <->
  exists s1 s2, s = (s1 ++ s2)%string /\ matches r1 s1 /\ matches r2 s2.
Proof.
  split.
  - intros H. inversion H; subst. eauto.
  - intros (s1 & s2 & -> & H1 & H2). now constructor.
Qed.

Lemma matches_class (p : ascii -> bool) (s : string) :
  matches (Class p) s <-> exists c, s = String c EmptyString /\ p c = true.
Proof.
  split.
  - intros H. inversion H; subst. eauto.
  - intros (c & -> & Hp). now constructor.
Qed.

Lemma deriv_matches (c : ascii) (r : regex) :
  forall s, matches (deriv c r) s <-> matches r (String c s).
Proof.
  induction r as [| |p|r1 IH1 r2 IH2|r1 IH1 r2 IH2|r IH]; intros s; simpl.
  - split; intros H; inversion H.
  - split; intros H; inversion H.
  - destruct (p c) eqn:Hp.
    + split; intros H; inversion H; subst.
      * now constructor.
      * constructor.
    + split; intros H; inversion H; subst. congruence.
  - assert (Hleft : matches (Cat (deriv c r1) r2) s ->
                    matches (Cat r1 r2) (String c s)).
    { intros H. apply matches_cat in H. destruct H as (s1 & s2 & -> & H1 & H2).
      change (String c (s1 ++ s2)) with (String c s1 ++ s2)%string.
      constructor; [now apply IH1|exact H2]. }
    assert (Hback : matches (Cat r1 r2) (String c s) ->
                    matches (Cat (deriv c r1) r2) s
                    \/ (nullable r1 = true /\ matches (deriv c r2) s)).
    { intros H. apply matches_cat in H. destruct H as (s1 & s2 & Heq & H1 & H2).
      destruct s1 as [|c1 s1]; simpl in Heq.
      - right. subst s2. split; [now apply nullable_matches|now apply IH2].
      - injection Heq as <- ->. left. constructor; [now apply IH1|exact H2]. }
    destruct (nullable r1) eqn:Hn.
    + split.
      * intros H. inversion H; subst; [now apply Hleft|].
        change (String c s) with (EmptyString ++ String c s)%string.
        constructor; [now apply nullable_matches|now apply IH2].
      * intros H. destruct (Hback H) as [H'|[_ H']];
          [now apply MAltL|now apply MAltR].
    + split; [exact Hleft|].
      intros H. destruct (Hback H) as [H'|[Hn' _]]; [exact H'|discriminate].
  - split; intros H; inversion H; subst.
    + apply MAltL. now apply IH1.
    + apply MAltR. now apply IH2.
    + apply MAltL. now apply IH1.
    + apply MAltR. now apply IH2.
  - split.
    + intros H. apply matches_cat in H. destruct H as (s1 & s2 & -> & H1 & H2).
      change (String c (s1 ++ s2)) with (String c s1 ++ s2)%string.
      constructor; [now apply IH|exact H2].
    + intros H. apply matches_star_cons in H.
      destruct H as (s1 & s2 & -> & H1 & H2).
      constructor; [now apply IH|exact H2].
Qed.

(** The derivative matcher decides the denotation. *)
Lemma fullmatch_matches (s : string) :
  forall r, fullmatch r s = true <-> matches r s.
Proof.
  induction s as [|c s IH]; intros r; simpl.
  - apply nullable_matches.
  - rewrite IH. apply deriv_matches.
Qed.

Lemma matches_star_class (p : ascii -> bool) (s : string) :
  matches (Star (Class p)) s <-> all_in p s = true.
Proof.
  split.
  - intros H. remember (Star (Class p)) as r eqn:Hr.
    induction H as [|p' c' Hp|r1 r2 s1 s2 H1 IH1 H2 IH2|r1 r2 s' H IH|r1 r2 s' H IH
                   |r0|r0 s1 s2 H1 IH1 H2 IH2]; try discriminate.
    + reflexivity.
    + injection Hr as ->. apply matches_class in H1.
      destruct H1 as (c & -> & Hc). simpl. rewrite Hc. now apply IH2.
  - induction s as [|c s IH]; simpl; intros H; [constructor|].
    apply andb_true_iff in H. destruct H as [Hc Hs].
    change (String c s) with (String c EmptyString ++ s)%string.
    constructor; [now constructor|now apply IH].
Qed.

Lemma matches_plus_class (p : ascii -> bool) (s : string) :
  matches (Plus (Class p)) s <-> s <> EmptyString /\ all_in p s = true.
Proof.
  unfold Plus. rewrite matches_cat. split.
  - intros (s1 & s2 & -> & H1 & H2). apply matches_class in H1.
    destruct H1 as (c & -> & Hc). apply matches_star_class in H2. simpl.
    split; [discriminate|]. now rewrite Hc, H2.
  - intros [Hne H]. destruct s as [|c s]; [contradiction|].
    simpl in H. apply andb_true_iff in H. destruct H as [Hc Hs].
    exists (String c EmptyString), s. split; [reflexivity|].
    split; [now constructor|now apply matches_star_class].
Qed.

Lemma matches_two_or_more (p : ascii -> bool) (s : string) :
  matches (Cat (Class p) (Cat (Class p) (Star (Class p)))) s
  <-> 2 <= String.length s /\ all_in p s = true.
Proof.
  rewrite matches_cat. split.
  - intros (s1 & s2 & -> & H1 & H2). apply matches_class in H1.
    destruct H1 as (c & -> & Hc). apply (matches_plus_class p) in H2.
    destruct H2 as [Hne H2]. simpl. rewrite Hc, H2.
    destruct s2; [contradiction|]. simpl. split; [lia|reflexivity].
  - intros [Hlen H]. destruct s as [|c s]; simpl in Hlen; [lia|].
    simpl in H. apply andb_true_iff in H. destruct H as [Hc Hs].
    exists (String c EmptyString), s. split; [reflexivity|].
    split; [now constructor|]. apply (matches_plus_class p).
    split; [|exact Hs]. destruct s; simpl in Hlen; [lia|discriminate].
Qed.

Lemma matches_email_body (s : string) :
  matches EMAIL_BODY s <-> email_shape s.
Proof.
  unfold EMAIL_BODY, email_shape. split.
  - intros H.
    apply matches_cat in H. destruct H as (local & s1 & -> & Hlocal & H).
    apply matches_cat in H. destruct H as (at_ & s2 & -> & Hat & H).
    apply matches_cat in H. destruct H as (domain & s3 & -> & Hdomain & H).
    apply matches_cat in H. destruct H as (dot & tld & -> & Hdot & Htld).
    apply matches_plus_class in Hlocal, Hdomain.
    apply matches_class in Hat, Hdot.
    destruct Hat as (c1 & -> & Hc1). destruct Hdot as (c2 & -> & Hc2).
    apply Ascii.eqb_eq in Hc1, Hc2. subst c1 c2.
    apply matches_two_or_more in Htld.
    exists local, domain, tld. tauto.
  - intros (local & domain & tld & -> & Hl1 & Hl2 & Hd1 & Hd2 & Ht1 & Ht2).
    constructor; [now apply matches_plus_class|].
    constructor; [now constructor|].
    constructor; [now apply matches_plus_class|].
    constructor; [now constructor|].
    now apply matches_two_or_more.
Qed.

Lemma strip_final_newline_spec (s t : string) :
  strip_final_newline s = Some t <-> s = (t ++ String "010" EmptyString)%string.
Proof.
  revert t. induction s as [|c s IH]; intros t.
  - simpl. split; [discriminate|]. destruct t; discriminate.
  - destruct s as [|c' s].
    + cbn [strip_final_newline]. unfold is_char.
      destruct (Ascii.eqb_spec "010"%char c) as [<-|Hne].
      * split.
        -- intros [= <-]. reflexivity.
        -- intros H. destruct t as [|c1 t]; [reflexivity|].
           destruct t; simpl in H; discriminate H.
      * split; [intros H; discriminate H|].
        intros H. destruct t as [|c1 t]; simpl in H.
        -- congruence.
        -- destruct t; simpl in H; discriminate H.
    + change (strip_final_newline (String c (String c' s)))
        with (match strip_final_newline (String c' s) with
              | Some t' => Some (String c t')
              | None => None
              end).
      split.
      * destruct (strip_final_newline (String c' s)) as [t'|];
          [|discriminate].
        intros H. injection H as <-. simpl.
        now rewrite (proj1 (IH t') eq_refl).
      * intros H. destruct t as [|c1 t]; simpl in H; [discriminate|].
        injection H as <- H. apply IH in H. now rewrite H.
Qed.

Lemma is_email_spec (s : string) :
  is_email s = true
  <-> email_shape s
      \/ exists t, s = (t ++ String "010" EmptyString)%string /\ email_shape t.
Proof.
  unfold is_email, search_anchored. rewrite orb_true_iff.
  rewrite fullmatch_matches, matches_email_body. split.
  - intros [H|H]; [now left|right].
    destruct (strip_final_newline s) as [t|] eqn:Hs; [|discriminate].
    exists t. split; [now apply strip_final_newline_spec|].
    now apply matches_email_body, fullmatch_matches.
  - intros [H|(t & Hs & H)]; [now left|right].
    apply strip_final_newline_spec in Hs. rewrite Hs.
    now apply fullmatch_matches, matches_email_body.
Qed.

(** X1.  What the email check accepts.  A string passes
    [str.contains] with the pattern of [detect_anomalies] exactly when it is
    [local@domain.tld] (a non-empty local part of letters, digits and
    [._%+-], a non-empty domain of letters, digits, dots and hyphens, and at
    least two letters after its last dot), or such an address followed by
    one newline. *)
Theorem email_pattern_accepts (s : string) :
  is_email s = true
  <-> email_shape s
      \/ exists t, s = (t ++ String "010" EmptyString)%string /\ email_shape t.
Proof. apply is_email_spec. Qed.

Lemma count_char_append (a : ascii) (s1 s2 : string) :
  count_char a (s1 ++ s2)%string = count_char a s1 + count_char a s2.
Proof.
  induction s1 as [|c s1 IH]; simpl; [reflexivity|]. rewrite IH. lia.
Qed.

Lemma count_char_outside (a : ascii) (p : ascii -> bool) (s : string) :
  p a = false -> all_in p s = true -> count_char a s = 0.
Proof.
  intros Ha. induction s as [|c s IH]; simpl; intros H; [reflexivity|].
  apply andb_true_iff in H. destruct H as [Hc Hs].
  destruct (Ascii.eqb_spec a c) as [->|_]; [congruence|]. now apply IH.
Qed.

Lemma email_shape_one_at (s : string) :
  email_shape s -> count_char "@" s = 1.
Proof.
  intros (local & domain & tld & -> & _ & Hl & _ & Hd & _ & Ht).
  rewrite !count_char_append.
  rewrite (count_char_outside "@" local_char local eq_refl Hl).
  rewrite (count_char_outside "@" domain_char domain eq_refl Hd).
  rewrite (count_char_outside "@" alpha tld eq_refl Ht).
  reflexivity.
Qed.

(** X2.  One at-sign.  Every string the email check accepts contains the
    character [@] exactly once, so a cell without it, or with two, is
    reported as invalid. *)
Theorem accepted_email_has_one_at (s : string) :
  is_email s = true -> count_char "@" s = 1.
Proof.
  intros H. apply is_email_spec in H.
  destruct H as [H|(t & -> & H)].
  - now apply email_shape_one_at.
  - rewrite count_char_append, (email_shape_one_at t H). reflexivity.
Qed.

End ReFacts.

(* ================================================================== *)
(** ** How many samples the threshold can flag *)

Module FlagCount.

Lemma sum_map_filter {A : Type} (f : A -> bool) (l : list A) :
  Pd.sum (map f l) = length (filter f l).
Proof.
  unfold Pd.sum. induction l as [|x l IH]; simpl; [reflexivity|].
  destruct (f x); simpl; now rewrite IH.
Qed.

Lemma filter_insert_sorted (f : Q -> bool) (x : Q) (l : list Q) :
  length (filter f (insert_sorted x l)) = length (filter f (x :: l)).
Proof.
  induction l as [|y l IH]; [reflexivity|].
  cbn [insert_sorted]. destruct (Qle_bool x y); [reflexivity|].
  cbn [filter] in *. destruct (f y), (f x); cbn [length] in *; lia.
Qed.

Lemma filter_sort (f : Q -> bool) (l : list Q) :
  length (filter f (sort l)) = length (filter f l).
Proof.
  induction l as [|x l IH]; [reflexivity|].
  cbn [sort fold_right]. fold (sort l). rewrite filter_insert_sorted.
  cbn [filter]. destruct (f x); cbn [length]; now rewrite IH.
Qed.

Lemma insert_sorted_elements (x : Q) (l : list Q) (z : Q) :
  In z (insert_sorted x l) -> z = x \/ In z l.
Proof.
  induction l as [|y l IH]; simpl; [intros [<-|[]]; now left|].
  destruct (Qle_bool x y); simpl.
  - intros [<-|[<-|H]]; auto.
  - intros [<-|H]; [auto|]. destruct (IH H); auto.
Qed.

Lemma insert_sorted_sorted (x : Q) (l : list Q) :
  StronglySorted Qle l -> StronglySorted Qle (insert_sorted x l).
Proof.
  induction l as [|y l IH]; intros Hs; simpl.
  - constructor; constructor.
  - inversion Hs as [|? ? Hs' Hall]; subst.
    destruct (Qle_bool x y) eqn:E.
    + apply Qle_bool_iff in E. constructor; [exact Hs|].
      constructor; [exact E|].
      eapply Forall_impl; [|exact Hall]. intros z Hz.
      eapply Qle_trans; eauto.
    + assert (Hyx : (y <= x)%Q).
      { apply Qlt_le_weak, Qnot_le_lt. intros Hle.
        apply Qle_bool_iff in Hle. congruence. }
      constructor; [now apply IH|].
      apply Forall_forall. intros z Hz.
      apply insert_sorted_elements in Hz. destruct Hz as [->|Hz]; [exact Hyx|].
      rewrite Forall_forall in Hall. now apply Hall.
Qed.

Lemma sort_sorted (l : list Q) : StronglySorted Qle (sort l).
Proof.
  induction l as [|x l IH]; [constructor|].
  cbn [sort fold_right]. now apply insert_sorted_sorted.
Qed.

Lemma sort_elements (l : list Q) (z : Q) : In z (sort l) -> In z l.
Proof.
  induction l as [|x l IH]; [auto|].
  cbn [sort fold_right]. fold (sort l). intros H.
  apply insert_sorted_elements in H. destruct H as [->|H]; [now left|].
  right. now apply IH.
Qed.

(** In sorted data, fewer than [k] elements lie strictly below a bound
    that the element of rank [k] reaches. *)
Lemma sorted_count_below (t : Q) (s : list Q) :
  StronglySorted Qle s ->
  forall k, k < length s -> (t <= nth k s 0)%Q ->
    length (filter (fun x => Qltb x t) s) <= k.
Proof.
  induction 1 as [|y s Hs IH Hall]; intros k Hk Ht; simpl in Hk; [lia|].
  destruct k as [|k]; cbn [nth] in Ht.
  - assert (Hnone : filter (fun x => Qltb x t) (y :: s) = []).
    { apply filter_none. intros z Hz. apply Qltb_ge.
      destruct Hz as [<-|Hz]; [exact Ht|].
      rewrite Forall_forall in Hall. eapply Qle_trans; [exact Ht|now apply Hall]. }
    rewrite Hnone. simpl. lia.
  - cbn [filter]. specialize (IH k ltac:(lia) Ht).
    destruct (Qltb y t); cbn [length]; lia.
Qed.

Lemma sorted_nth_le (s : list Q) :
  StronglySorted Qle s ->
  forall i j, i <= j -> j < length s -> (nth i s 0 <= nth j s 0)%Q.
Proof.
  induction 1 as [|y s Hs IH Hall]; intros i j Hij Hj; simpl in Hj; [lia|].
  destruct j as [|j].
  - replace i with 0 by lia. apply Qle_refl.
  - destruct i as [|i]; cbn [nth].
    + rewrite Forall_forall in Hall. apply Hall. apply nth_In. lia.
    + apply IH; lia.
Qed.

(** The virtual index of the 5th percentile of [m + 1] samples has integer
    part [m / 20]. *)
Lemma previous_index (m : nat) :
  Z.to_nat (Qfloor (inject_Z (Z.of_nat m) * 5 / 100)) = m / 20.
Proof.
  unfold Qfloor, Qdiv, Qmult, Qinv, inject_Z. cbn [Qnum Qden].
  change (Z.pos (1 * 1 * 100)) with (20 * 5)%Z.
  rewrite Z.mul_1_r, Z.div_mul_cancel_r by lia.
  change 20%Z with (Z.of_nat 20). rewrite <- Nat2Z.inj_div. apply Nat2Z.id.
Qed.

(** The interpolation weight lies in [0, 1). *)
Lemma gamma_unit (h : Q) :
  (0 <= h)%Q ->
  (0 <= h - inject_Z (Z.of_nat (Z.to_nat (Qfloor h))))%Q
  /\ (h - inject_Z (Z.of_nat (Z.to_nat (Qfloor h))) < 1)%Q.
Proof.
  intros Hh.
  assert (Hfloor : (0 <= Qfloor h)%Z).
  { change 0%Z with (Qfloor 0). now apply Qfloor_resp_le. }
  rewrite Z2Nat.id by exact Hfloor.
  pose proof (Qfloor_le h) as Hle. pose proof (Qlt_floor h) as Hlt.
  rewrite inject_Z_plus in Hlt. change (inject_Z 1) with 1%Q in Hlt.
  split; lra.
Qed.

(** The 5th percentile does not exceed the sorted sample of rank
    [m / 20 + 1], capped at the last rank. *)
Lemma percentile_5_below_next (l : list Q) :
  l <> [] ->
  (percentile l 5
   <= nth (Nat.min ((length l - 1) / 20 + 1) (length l - 1)) (sort l) 0)%Q.
Proof.
  intros Hne. unfold percentile.
  set (m := length l - 1).
  assert (Hlen : length l = S m).
  { destruct l; [contradiction|]. subst m. simpl. lia. }
  rewrite previous_index.
  set (h := (inject_Z (Z.of_nat m) * 5 / 100)%Q).
  assert (Hh : (0 <= h)%Q).
  { subst h. unfold Qdiv. change (/ 100)%Q with (1 # 100)%Q.
    assert (0 <= inject_Z (Z.of_nat m))%Q
      by (change 0%Q with (inject_Z 0); rewrite <- Zle_Qle; lia).
    lra. }
  pose proof (gamma_unit h Hh) as [Hg0 Hg1].
  pose proof (previous_index m) as Hprev. fold h in Hprev.
  rewrite Hprev in Hg0, Hg1.
  set (g := (h - inject_Z (Z.of_nat (m / 20)))%Q) in *.
  set (k := m / 20). set (k' := Nat.min (k + 1) m).
  assert (Hkm : k <= m) by (subst k; apply Nat.Div0.div_le_upper_bound; lia).
  assert (Horder : (nth k (sort l) 0 <= nth k' (sort l) 0)%Q).
  { apply sorted_nth_le; [apply sort_sorted| |]; subst k'.
    - lia.
    - rewrite sort_length, Hlen. lia. }
  nra.
Qed.

End FlagCount.

(* ================================================================== *)
(** ** The anomaly tab of app.py *)

Module AppFacts.

Import App ReSem.

Lemma string_of_uint_digits (d : Decimal.uint) :
  all_in digit (NilEmpty.string_of_uint d) = true.
Proof. induction d; simpl; auto. Qed.

Lemma str_of_nat_inj (n m : nat) :
  Fmt.str_of_nat n = Fmt.str_of_nat m -> n = m.
Proof.
  unfold Fmt.str_of_nat. intros H. apply DecimalNat.Unsigned.to_uint_inj.
  assert (Hs : Some (Nat.to_uint n) = Some (Nat.to_uint m)).
  { rewrite <- !NilEmpty.usu. now rewrite H. }
  now injection Hs.
Qed.

(** Two numbers printed before a dot are equal when the texts are. *)
Lemma digits_before_dot (a b x y : string) :
  all_in digit a = true -> all_in digit b = true ->
  (a ++ String "." x)%string = (b ++ String "." y)%string -> a = b.
Proof.
  revert b. induction a as [|c a IH]; intros b Ha Hb Heq.
  - destruct b as [|c' b]; [reflexivity|].
    simpl in Heq. injection Heq as <- _. simpl in Hb. discriminate.
  - destruct b as [|c' b]; simpl in Heq.
    + injection Heq as -> _. simpl in Ha. discriminate.
    + injection Heq as <- Heq. simpl in Ha, Hb.
      apply andb_true_iff in Ha, Hb. f_equal. apply IH; tauto.
Qed.

Lemma anomaly_option_inj (i j : nat) (a b : Anomaly) :
  anomaly_option i a = anomaly_option j b -> i = j.
Proof.
  unfold anomaly_option. intros H.
  apply digits_before_dot in H;
    [|apply string_of_uint_digits|apply string_of_uint_digits].
  apply str_of_nat_inj in H. lia.
Qed.

Lemma options_from_In (l : list Anomaly) :
  forall i s, In s (options_from i l) ->
    exists j a, i <= j /\ s = anomaly_option j a.
Proof.
  induction l as [|a l IH]; intros i s H; [destruct H|].
  destruct H as [<-|H]; [exists i, a; auto|].
  destruct (IH (S i) s H) as (j & b & Hj & ->). exists j, b. split; [lia|auto].
Qed.

Lemma options_from_NoDup (l : list Anomaly) :
  forall i, NoDup (options_from i l).
Proof.
  induction l as [|a l IH]; intros i; simpl; constructor; [|apply IH].
  intros Hin. apply options_from_In in Hin. destruct Hin as (j & b & Hj & Heq).
  apply anomaly_option_inj in Heq. lia.
Qed.

Lemma options_from_nth (l : list Anomaly) :
  forall i idx a, nth_error l idx = Some a ->
    nth_error (options_from i l) idx = Some (anomaly_option (i + idx) a).
Proof.
  induction l as [|b l IH]; intros i idx a H; [destruct idx; discriminate|].
  destruct idx as [|idx]; simpl in H.
  - injection H as ->. simpl. now rewrite Nat.add_0_r.
  - simpl. rewrite (IH (S i) idx a H). f_equal. f_equal. lia.
Qed.

Lemma options_from_length (l : list Anomaly) :
  forall i, length (options_from i l) = length l.
Proof. induction l as [|a l IH]; intros i; simpl; [reflexivity|now rewrite IH]. Qed.

(** X8.  The selection list.  [app.py] builds one label per anomaly; the
    labels are pairwise distinct, even for records of the same kind and
    column, because of their running number; and every index the select box
    can return picks an anomaly and its own label, without an [IndexError]. *)
Theorem anomaly_options_select (anomalies : list Anomaly) :
  length (anomaly_options anomalies) = length anomalies
  /\ NoDup (anomaly_options anomalies)
  /\ forall idx, idx < length (anomaly_options anomalies) ->
       exists a,
         list_getitem anomalies idx = Return a
         /\ list_getitem (anomaly_options anomalies) idx
            = Return (anomaly_option idx a).
Proof.
  unfold anomaly_options. split; [apply options_from_length|].
  split; [apply options_from_NoDup|].
  intros idx Hidx. rewrite options_from_length in Hidx.
  destruct (nth_error anomalies idx) as [a|] eqn:Ha.
  - exists a. unfold list_getitem. rewrite Ha.
    now rewrite (options_from_nth anomalies 0 idx a Ha).
  - apply nth_error_None in Ha. lia.
Qed.







End AppFacts.

(* ================================================================== *)
(** ** Further properties of [detect_anomalies] *)

Section Further.

Variable num_str : Q -> string.
Variable Forest : Type.
Variable IsolationForest_fit : Z -> list Q -> Outcome Forest.
Variable decision_function : Forest -> Q -> Q.

(** X3.  The threshold flags few samples.  For a numerical column with [n]
    present samples ([n >= 1]) and any fitted model, the samples whose score
    is strictly below the 5th percentile number at most [(n - 1) / 20 + 1],
    and never all [n] of them. *)
Theorem flagged_samples_are_few (forest : Forest) (vals : list (option Q)) :
  dropna_values vals <> [] ->
  length (flagged_rows Forest decision_function forest vals)
  <= (length (dropna_values vals) - 1) / 20 + 1
  /\ length (flagged_rows Forest decision_function forest vals)
     < length (dropna_values vals).
Proof using Type.
  intros Hne.
  set (scores := outlier_scores Forest decision_function forest vals).
  assert (Hscores : length scores = length (dropna_values vals))
    by (unfold scores, outlier_scores; apply length_map).
  assert (Hne' : scores <> []).
  { intros H. rewrite H in Hscores. simpl in Hscores.
    destruct (dropna_values vals); [contradiction|discriminate]. }
  assert (Hpos : 1 <= length (dropna_values vals)).
  { destruct (dropna_values vals); [contradiction|simpl; lia]. }
  assert (Hcount :
    length (flagged_rows Forest decision_function forest vals)
    <= Nat.min ((length scores - 1) / 20 + 1) (length scores - 1)).
  { rewrite flagged_rows_length. unfold flag_mask, threshold. fold scores.
    rewrite FlagCount.sum_map_filter, <- FlagCount.filter_sort.
    apply FlagCount.sorted_count_below.
    - apply FlagCount.sort_sorted.
    - rewrite sort_length. lia.
    - now apply FlagCount.percentile_5_below_next. }
  rewrite Hscores in Hcount. lia.
Qed.

(** X4.  Equal scores flag nothing.  When the fitted model gives every
    present sample of a column the same score, no sample is strictly below
    the 5th percentile and the column contributes no outlier record. *)
Theorem equal_scores_flag_nothing (name : string) (vals : list (option Q))
    (forest : Forest) :
  IsolationForest_fit 42%Z (dropna_values vals) = Return forest ->
  (forall x y, In x (dropna_values vals) -> In y (dropna_values vals) ->
     (decision_function forest x == decision_function forest y)%Q) ->
  flagged_rows Forest decision_function forest vals = []
  /\ outlier_records Forest IsolationForest_fit decision_function (name, vals) = [].
Proof using Type.
  intros Hfit Hequal.
  assert (Hrows : flagged_rows Forest decision_function forest vals = []).
  { destruct (dropna_values vals) as [|x0 X] eqn:HX.
    { unfold flagged_rows, dropna_index.
      assert (Hidx : np_where (notnull vals) = []).
      { pose proof (dropna_length vals) as Hl. rewrite HX in Hl.
        unfold dropna_index in Hl. now apply length_zero_iff_nil. }
      rewrite Hidx. destruct (flag_mask Forest decision_function forest vals);
        reflexivity. }
    apply length_zero_iff_nil. rewrite flagged_rows_length.
    unfold flag_mask, threshold.
    set (scores := outlier_scores Forest decision_function forest vals).
    rewrite FlagCount.sum_map_filter.
    assert (Hnone : filter (fun s => Qltb s (percentile scores 5)) scores = []).
    { assert (Hne : scores <> []).
      { unfold scores, outlier_scores. rewrite HX. discriminate. }
      pose proof (FlagCount.percentile_5_below_next scores Hne) as Hbound.
      set (hi := nth (Nat.min ((length scores - 1) / 20 + 1) (length scores - 1))
                     (sort scores) 0%Q) in *.
      assert (Hhi : In hi scores).
      { apply FlagCount.sort_elements. apply nth_In. rewrite sort_length.
        destruct scores; [contradiction|simpl; lia]. }
      apply filter_none. intros s Hs. apply Qltb_ge.
      unfold scores, outlier_scores in Hs, Hhi.
      apply in_map_iff in Hs. destruct Hs as (x & <- & Hx).
      apply in_map_iff in Hhi. destruct Hhi as (y & Hy & Hyin).
      rewrite <- HX in *.
      rewrite <- (Hequal y x Hyin Hx), Hy. exact Hbound. }
    now rewrite Hnone. }
  split; [exact Hrows|].
  unfold outlier_records. destruct (eligible vals); [|reflexivity].
  now rewrite Hfit, Hrows.
Qed.

Lemma distinct_length (l : list Q) :
  forall seen, length (distinct seen l) <= length seen + length l.
Proof using Type.
  induction l as [|x l IH]; intros seen; simpl; [lia|].
  destruct (existsb (Qeq_bool x) seen).
  - specialize (IH seen). lia.
  - specialize (IH (x :: seen)). simpl in IH. lia.
Qed.

(** X5.  The sample-count guard never fails on its own.  A column has no
    more distinct present values than present samples, so whenever the
    variation guard [nunique() > 1] holds the guard [len(temp_col_data) > 1]
    holds too: a column is eligible exactly when it has more than one
    distinct present value. *)
Theorem variation_guard_implies_count_guard (vals : list (option Q)) :
  nunique vals <= length (dropna_values vals)
  /\ eligible vals = (1 <? nunique vals).
Proof using Type.
  assert (Hle : nunique vals <= length (dropna_values vals)).
  { unfold nunique. pose proof (distinct_length (dropna_values vals) []) as H.
    simpl in H. exact H. }
  split; [exact Hle|]. unfold eligible.
  destruct (1 <? nunique vals) eqn:Hu; [|reflexivity].
  apply Nat.ltb_lt in Hu. simpl. apply Nat.ltb_lt. lia.
Qed.

Lemma flat_map_length_le {A B : Type} (f : A -> list B) (l : list A) :
  (forall a, length (f a) <= 1) -> length (flat_map f l) <= length l.
Proof using Type.
  intros Hf. induction l as [|x l IH]; simpl; [lia|].
  rewrite length_app. specialize (Hf x). lia.
Qed.

(** X6.  The report is short.  When [detect_anomalies] returns, each pass
    has appended at most one record per column it visits, so the report
    holds at most one record per column, one more per numerical column, and
    one for the email check. *)
Theorem report_length_bound (df : DataFrame) (env : Env) :
  detect_anomalies num_str Forest IsolationForest_fit decision_function df
  = Return env ->
  length (anomalies env)
  <= length (columns df) + length (select_dtypes_number df) + 1
  /\ length (select_dtypes_number df) <= length (columns df).
Proof using Type.
  intros Hrun.
  destruct (detect_anomalies_inv num_str Forest IsolationForest_fit
              decision_function df env Hrun) as [-> _].
  cbn [anomalies]. unfold report. rewrite !length_app.
  assert (H1 : length (flat_map (missing_records df) (columns df))
               <= length (columns df)).
  { apply flat_map_length_le. intros col.
    unfold missing_records, missing_values_body.
    destruct (any (isnull (col_data col))); simpl; lia. }
  assert (H2 : length (flat_map
                         (outlier_records Forest IsolationForest_fit decision_function)
                         (select_dtypes_number df))
               <= length (select_dtypes_number df)).
  { apply flat_map_length_le. intros [name vals]. unfold outlier_records.
    destruct (eligible vals); [|simpl; lia].
    destruct (IsolationForest_fit 42%Z (dropna_values vals)) as [forest|e];
      [|simpl; lia].
    destruct (flagged_rows Forest decision_function forest vals); simpl; lia. }
  assert (H3 : length (email_records num_str df) <= 1).
  { unfold email_records. destruct (getitem df "email") as [email|]; [|simpl; lia].
    destruct (invalid_rows num_str email); simpl; lia. }
  assert (H4 : length (select_dtypes_number df) <= length (columns df)).
  { unfold select_dtypes_number. apply flat_map_length_le. intros col.
    destruct (col_data col); simpl; lia. }
  lia.
Qed.


End Further.

(** X7.  The model touches only the outlier records.  Two runs of
    [detect_anomalies] on one dataset with different isolation forests, if
    both return, agree on every record that is not an "Outlier (Numerical)"
    record, in the same order. *)
Theorem model_affects_only_outlier_records (num_str : Q -> string)
    (Forest1 Forest2 : Type)
    (fit1 : Z -> list Q -> Outcome Forest1) (fit2 : Z -> list Q -> Outcome Forest2)
    (score1 : Forest1 -> Q -> Q) (score2 : Forest2 -> Q -> Q)
    (df : DataFrame) (env1 env2 : Env) :
  detect_anomalies num_str Forest1 fit1 score1 df = Return env1 ->
  detect_anomalies num_str Forest2 fit2 score2 df = Return env2 ->
  filter (fun a => negb (String.eqb (type a) "Outlier (Numerical)")) (anomalies env1)
  = filter (fun a => negb (String.eqb (type a) "Outlier (Numerical)")) (anomalies env2).
Proof.
  intros H1 H2.
  destruct (detect_anomalies_inv _ _ _ _ _ _ H1) as [-> _].
  destruct (detect_anomalies_inv _ _ _ _ _ _ H2) as [-> _].
  cbn [anomalies]. unfold report. rewrite !filter_app. f_equal. f_equal.
  rewrite !filter_none; [reflexivity| |].
  - intros a Ha. apply in_flat_map in Ha. destruct Ha as (col & _ & Ha).
    apply outlier_records_kind in Ha. destruct Ha as [-> _]. reflexivity.
  - intros a Ha. apply in_flat_map in Ha. destruct Ha as (col & _ & Ha).
    apply outlier_records_kind in Ha. destruct Ha as [-> _]. reflexivity.
Qed.

(* ================================================================== *)
(** ** How the passes meet *)

Section Interplay.

Variable num_str : Q -> string.
Variable Forest : Type.
Variable IsolationForest_fit : Z -> list Q -> Outcome Forest.
Variable decision_function : Forest -> Q -> Q.

Lemma filter_length_implies {A : Type} (f g : A -> bool) (l : list A) :
  (forall a, In a l -> f a = true -> g a = true) ->
  length (filter f l) <= length (filter g l).
Proof using Type.
  induction l as [|x l IH]; intros H; simpl; [lia|].
  assert (IH' : length (filter f l) <= length (filter g l))
    by (apply IH; intros a Ha; apply H; now right).
  destruct (f x) eqn:Hf.
  - rewrite (H x (or_introl eq_refl) Hf). simpl. lia.
  - destruct (g x); simpl; lia.
Qed.

Lemma absent_cells_are_invalid (email : Series) :
  sum (isnull email) <= length (invalid_rows num_str email).
Proof using Type.
  unfold invalid_rows, np_where. rewrite where_from_length.
  unfold isnull, invalid_mask. rewrite !FlagCount.sum_map_filter.
  apply filter_length_implies. intros v _ Hv.
  destruct v; try discriminate. reflexivity.
Qed.

(** X10.  Absent email cells are reported twice.  On a well-formed
    dataset whose email column has absent cells, the report holds a
    "Missing Values" record and an "Invalid Format (Email)" record for that
    column, and the number of rows the format record counts is at least the
    number of absent cells. *)
Theorem absent_emails_counted_by_both_passes (df : DataFrame) (env : Env)
    (email : Series) :
  well_formed df ->
  detect_anomalies num_str Forest IsolationForest_fit decision_function df
  = Return env ->
  getitem df "email" = Some email ->
  0 < sum (isnull email) ->
  (exists m, filter (is_record "Missing Values" "email") (anomalies env) = [m])
  /\ (exists f,
        filter (is_record "Invalid Format (Email)" "email") (anomalies env) = [f]
        /\ description f
           = (Fmt.str_of_nat (length (invalid_rows num_str email))
              ++ " rows with invalid email format found.")%string)
  /\ sum (isnull email) <= length (invalid_rows num_str email).
Proof using Type.
  intros [_ Hnd] Hrun Hget Hpos.
  destruct (detect_anomalies_inv num_str Forest IsolationForest_fit
              decision_function df env Hrun) as [-> _].
  cbn [anomalies]. pose proof (absent_cells_are_invalid email) as Hle.
  split; [|split; [|exact Hle]].
  - pose proof (report_missing_filter num_str Forest IsolationForest_fit
                  decision_function df
                  {| col_name := "email"; col_data := email |} Hnd
                  (getitem_In df "email" email Hget)) as Hfilter.
    cbn [col_name] in Hfilter. rewrite Hfilter.
    unfold missing_records, missing_values_body. cbn [col_data].
    rewrite any_sum. apply Nat.ltb_lt in Hpos. rewrite Hpos. eexists. reflexivity.
  - rewrite report_email_filter. unfold email_records. rewrite Hget.
    destruct (invalid_rows num_str email) as [|r rows] eqn:Hrows;
      [simpl in Hle; lia|].
    eexists. split; [reflexivity|]. unfold email_record. cbn [description].
    now rewrite Hrows.
Qed.


End Interplay.

(* ================================================================== *)
(** ** The further properties on the sample datasets *)

Module OnSamplesFurther.

Import Sample.

(** X2 on "a@b.com". *)
Lemma accepted_email_has_one_at_witness :
  ReSem.count_char "@" "a@b.com" = 1.
Proof. exact (ReFacts.accepted_email_has_one_at "a@b.com" eq_refl). Defined.

(** X3 on the age column of [people]: ten samples, at most one flagged. *)
Lemma flagged_samples_are_few_witness :
  length (flagged_rows Forest decision_function
            (dropna_values example_outlier_column) example_outlier_column)
  <= 1.
Proof.
  destruct (flagged_samples_are_few Forest decision_function
              (dropna_values example_outlier_column) example_outlier_column)
    as [Hfew _].
  - discriminate.
  - exact Hfew.
Defined.

(** X4 on [two_values]: the stand-in model scores 1 and 2 alike. *)
Lemma equal_scores_flag_nothing_witness :
  outlier_records Forest fit decision_function ("x", [num 1; num 2]) = [].
Proof.
  destruct (equal_scores_flag_nothing Forest fit decision_function
              "x" [num 1; num 2] [inject_Z 1; inject_Z 2] eq_refl)
    as [_ Hnone].
  - intros x y [<-|[<-|[]]] [<-|[<-|[]]]; vm_compute; reflexivity.
  - exact Hnone.
Defined.

(** X6 on [people]: four columns, two of them numerical. *)
Lemma report_length_bound_witness :
  length (report num_str Forest fit decision_function people) <= 4 + 2 + 1.
Proof.
  destruct (report_length_bound num_str Forest fit decision_function
              people _ OnSamples.people_run) as [Hbound _].
  exact Hbound.
Defined.

(** X7 on [people]: a fit that rejects every column leaves the
    missing-value and the email record as they are. *)
Lemma model_affects_only_outlier_records_witness :
  filter (fun a => negb (String.eqb (type a) "Outlier (Numerical)"))
         (report num_str Forest fit decision_function people)
  = filter (fun a => negb (String.eqb (type a) "Outlier (Numerical)"))
           (report num_str Forest fit_rejects decision_function people).
Proof.
  assert (Hrejects :
    detect_anomalies num_str Forest fit_rejects decision_function people
    = Return {| anomalies := report num_str Forest fit_rejects decision_function people;
                stdout := printed Forest fit_rejects people |})
    by (vm_compute; reflexivity).
  exact (model_affects_only_outlier_records num_str Forest Forest
           fit fit_rejects decision_function decision_function people _ _
           OnSamples.people_run Hrejects).
Defined.


(** X10 on [people]: three absent email cells, four rows in the format
    record. *)
Lemma absent_emails_counted_by_both_passes_witness :
  3 <= length (invalid_rows num_str
                 (ObjSeries [Some "a@b.com"; None; Some "c@d.org"; Some "e@f.io";
                             None; Some "g@h.net"; Some "i@j.edu"; None;
                             Some "k@l.com"; Some "not-an-email"])).
Proof.
  destruct (absent_emails_counted_by_both_passes num_str Forest fit
              decision_function people _
              (ObjSeries [Some "a@b.com"; None; Some "c@d.org"; Some "e@f.io";
                          None; Some "g@h.net"; Some "i@j.edu"; None;
                          Some "k@l.com"; Some "not-an-email"])
              (well_formedb_sound people eq_refl) OnSamples.people_run eq_refl)
    as (_ & _ & Hcount).
  - vm_compute. lia.
  - exact Hcount.
Defined.

End OnSamplesFurther.
